(** * The API client of the WROLPi web front-end (api.js)

    A shallow embedding of the [fetch]-based API client: the timeout wrapper
    [timeoutPromise], the guarded executor [apiCall], its five convenience
    wrappers and the exported operation functions, then the handlers of
    the map page (Map.js) and of the archive page (Archive.js) that call
    them, followed by the properties that hold on this code.

    JavaScript values are a first-order datatype, asynchronous functions
    are computations in a state-and-exception monad over an explicit world
    (the replies the network is going to give, the heap of Response
    objects, the timers, and the log of observable effects). The backend
    is not part of the client: a run is given the replies of the network,
    each with the time it takes, and the statements hold for all of them. *)

From Stdlib Require Import String ZArith NArith List Bool Lia PeanoNat DecimalString.
Import ListNotations.
Local Open Scope string_scope.
Local Open Scope Z_scope.
Local Open Scope list_scope.
Local Set Warnings "-register-all".

(* ================================================================== *)
(** ** JavaScript values *)
(* ================================================================== *)

(** Numbers are the integers and [NaN]: status codes, error codes, totals
    and the results of [parseInt] are all the client ever computes with.
    A [Response] is an object of the heap, named by its reference. *)
Inductive value : Type :=
| VUndefined
| VNull
| VBool (b : bool)
| VNum (n : Z)
| VNaN
| VStr (s : string)
| VArr (items : list value)
| VObj (fields : list (string * value))
| VResponse (ref : nat).

(** ToBoolean: what [if (x)], [!x] and [x || y] look at. *)
Definition truthy (v : value) : bool :=
  match v with
  | VUndefined | VNull | VNaN => false
  | VBool b => b
  | VNum n => negb (n =? 0)
  | VStr s => negb (s =? "")%string
  | VArr _ | VObj _ | VResponse _ => true
  end.

(** [a || b] *)
Definition or_else (a b : value) : value := if truthy a then a else b.

(** [a === b] where one side is a primitive; two distinct objects are
    never identical, and neither is [NaN] to itself. *)
Definition strict_eq (a b : value) : bool :=
  match a, b with
  | VUndefined, VUndefined => true
  | VNull, VNull => true
  | VBool x, VBool y => Bool.eqb x y
  | VNum x, VNum y => x =? y
  | VStr x, VStr y => (x =? y)%string
  | VResponse x, VResponse y => (x =? y)%nat
  | _, _ => false
  end.

(** [a <= b] and [a < b] on numbers; a comparison with anything that is
    not a number here ([undefined] becomes [NaN]) is false. *)
Definition num_le (a b : value) : bool :=
  match a, b with VNum x, VNum y => x <=? y | _, _ => false end.
Definition num_lt (a b : value) : bool :=
  match a, b with VNum x, VNum y => x <? y | _, _ => false end.

(** Own properties of an object literal or of a parsed JSON object. *)
Fixpoint obj_get (k : string) (fields : list (string * value)) : value :=
  match fields with
  | [] => VUndefined
  | (k', v) :: rest => if (k =? k')%string then v else obj_get k rest
  end.

Fixpoint obj_has (k : string) (fields : list (string * value)) : bool :=
  match fields with
  | [] => false
  | (k', _) :: rest => (k =? k')%string || obj_has k rest
  end.

Fixpoint obj_replace (k : string) (v : value) (fields : list (string * value))
  : list (string * value) :=
  match fields with
  | [] => []
  | (k', v') :: rest =>
      if (k =? k')%string then (k', v) :: rest else (k', v') :: obj_replace k v rest
  end.

(** [o[k] = v]: an existing key keeps its place, a new one goes last. *)
Definition obj_set (k : string) (v : value) (fields : list (string * value))
  : list (string * value) :=
  if obj_has k fields then obj_replace k v fields else fields ++ [(k, v)].

(** [delete o[k]] *)
Fixpoint obj_delete (k : string) (fields : list (string * value))
  : list (string * value) :=
  match fields with
  | [] => []
  | (k', v') :: rest =>
      if (k =? k')%string then obj_delete k rest else (k', v') :: obj_delete k rest
  end.

(* ================================================================== *)
(** ** Errors, responses, requests, notifications *)
(* ================================================================== *)

(** The errors this module can see, by where they are made. *)
Inductive error : Type :=
| PromiseTimeout                  (* new Error("promise timeout"), made by the timer *)
| FetchRejected (reason : string) (* what fetch rejected with: the network failed *)
| JsonSyntaxError                 (* response.json() on a body that is not JSON *)
| TypeError (what : string)       (* a property of undefined or null, a used body, ... *)
| DownloaderRequired.             (* new Error('downloader is required, but was not provided') *)

(** A [Response]: its status, its body as [response.json()] would parse it
    ([None]: no body, or a body that is not JSON), and whether the body
    has been read. *)
Record Response : Type := mkResponse {
  status : Z;
  body : option value;
  bodyUsed : bool
}.

(** The [init] argument of fetch: [{method}] or [{method, body}]. *)
Record Init : Type := mkInit {
  method : string;
  init_body : option string
}.

(** The argument of [toast]. *)
Record Toast : Type := mkToast {
  toast_type : string;
  title : string;
  description : value;
  time : Z
}.

Inductive console_level : Type := LError | LDebug | LLog.

Inductive console_arg : Type :=
| CStr (s : string)
| CVal (v : value)
| CErr (e : error).

(** The observable effects, in the order they happen. *)
Inductive event : Type :=
| EvFetch (url : string) (init : Init)
| EvToast (t : Toast)
| EvConsole (level : console_level) (args : list console_arg).

(* ================================================================== *)
(** ** The world *)
(* ================================================================== *)

(** What the network does with one request: a response or a failure after
    [t] milliseconds, or nothing ever. A response comes with its body,
    as [response.json()] will parse it: the body is there when the
    response is. A body that stalls after the headers have come in is not
    among these replies; the executor has cleared its timer by then, so
    on such a network a call that reads the body would wait. The
    statements below therefore say what a call returns or throws on the
    replies of this type, and that it does not wait when the reply fails
    to come in time; they never say that a call ends on every network. *)
Inductive net_reply : Type :=
| Responds (t : N) (st : Z) (b : option value)
| Fails (t : N) (reason : string)
| Silent.

(** A one-shot timer is armed by setTimeout, and leaves the list of the
    active timers either by firing or by clearTimeout. *)
Inductive timer_status : Type := Armed | Fired | Cleared.

Record World : Type := mkWorld {
  network : list net_reply;     (* the replies to the fetches to come, in order *)
  timer_first_on_tie : bool;    (* which task runs first when both are due at once *)
  heap : list Response;         (* the Response objects, by reference *)
  timers : list timer_status;   (* every timer ever set, by id *)
  events : list event           (* the log *)
}.

Definition log (ev : event) (w : World) : World :=
  mkWorld (network w) (timer_first_on_tie w) (heap w) (timers w) (events w ++ [ev]).

Definition alloc (r : Response) (w : World) : World :=
  mkWorld (network w) (timer_first_on_tie w) (heap w ++ [r]) (timers w) (events w).

Definition set_heap (h : list Response) (w : World) : World :=
  mkWorld (network w) (timer_first_on_tie w) h (timers w) (events w).

Definition set_network (n : list net_reply) (w : World) : World :=
  mkWorld n (timer_first_on_tie w) (heap w) (timers w) (events w).

Definition record_timer (s : timer_status) (w : World) : World :=
  mkWorld (network w) (timer_first_on_tie w) (heap w) (timers w ++ [s]) (events w).

Fixpoint update_nth {A : Type} (n : nat) (f : A -> A) (l : list A) : list A :=
  match l, n with
  | [], _ => []
  | x :: rest, O => f x :: rest
  | x :: rest, S n' => x :: update_nth n' f rest
  end.

Definition mark_used (r : Response) : Response :=
  mkResponse (status r) (body r) true.

(** The toasts of a log. *)
Fixpoint toasts (evs : list event) : list Toast :=
  match evs with
  | [] => []
  | EvToast t :: rest => t :: toasts rest
  | _ :: rest => toasts rest
  end.

(** The requests of a log. *)
Fixpoint fetches (evs : list event) : list (string * Init) :=
  match evs with
  | [] => []
  | EvFetch u i :: rest => (u, i) :: fetches rest
  | _ :: rest => fetches rest
  end.

Definition timer_active (s : timer_status) : bool :=
  match s with Armed => true | _ => false end.

(* ================================================================== *)
(** ** Asynchronous computations *)
(* ================================================================== *)

(** An [async] function, run to the end: it returns, it throws (its
    promise rejects), or it waits for ever on a promise that never
    settles. *)
Inductive outcome (A : Type) : Type :=
| Ret (a : A)
| Throw (e : error)
| Hang.
Arguments Ret {A} a.
Arguments Throw {A} e.
Arguments Hang {A}.

Definition M (A : Type) : Type := World -> outcome A * World.

Definition ret {A : Type} (a : A) : M A := fun w => (Ret a, w).

Definition throw {A : Type} (e : error) : M A := fun w => (Throw e, w).

Definition bind {A B : Type} (m : M A) (k : A -> M B) : M B :=
  fun w =>
    match m w with
    | (Ret a, w') => k a w'
    | (Throw e, w') => (Throw e, w')
    | (Hang, w') => (Hang, w')
    end.

(** [try { m } catch (e) { handler e }] *)
Definition try_catch {A : Type} (m : M A) (handler : error -> M A) : M A :=
  fun w =>
    match m w with
    | (Throw e, w') => handler e w'
    | r => r
    end.

Declare Scope js_scope.
Delimit Scope js_scope with js.
Notation "x <- m ;; k" := (bind m (fun x => k))
  (at level 61, m at next level, right associativity) : js_scope.
Notation "m ;; k" := (bind m (fun _ => k))
  (at level 61, right associativity) : js_scope.
Local Open Scope js_scope.

Definition when (c : bool) (m : M unit) : M unit := if c then m else ret tt.

Definition toast (t : Toast) : M unit := fun w => (Ret tt, log (EvToast t) w).

Definition console (level : console_level) (args : list console_arg) : M unit :=
  fun w => (Ret tt, log (EvConsole level args) w).

(** [v[k]], for the keys the client reads: a property of [undefined] or
    [null] is a TypeError, a Response has its status, an object its own
    properties, and nothing else has any of these keys. *)
Definition get (v : value) (k : string) : M value :=
  fun w =>
    match v with
    | VUndefined => (Throw (TypeError "property of undefined"), w)
    | VNull => (Throw (TypeError "property of null"), w)
    | VObj fields => (Ret (obj_get k fields), w)
    | VResponse ref =>
        match nth_error (heap w) ref with
        | Some r => (Ret (if (k =? "status")%string then VNum (status r) else VUndefined), w)
        | None => (Ret VUndefined, w)
        end
    | _ => (Ret VUndefined, w)
    end.

(** [response.clone()]: a second Response over the same body. *)
Definition clone (v : value) : M value :=
  fun w =>
    match v with
    | VUndefined => (Throw (TypeError "property of undefined"), w)
    | VNull => (Throw (TypeError "property of null"), w)
    | VResponse ref =>
        match nth_error (heap w) ref with
        | Some r =>
            if bodyUsed r then (Throw (TypeError "body already used"), w)
            else (Ret (VResponse (List.length (heap w))), alloc r w)
        | None => (Throw (TypeError "clone is not a function"), w)
        end
    | _ => (Throw (TypeError "clone is not a function"), w)
    end.

(** [await response.json()]: reads the body, once. The body is there
    when the response is (see [net_reply]), so the read returns or
    throws. A body that is not JSON and a response that has no body are
    both [None]; the second would keep its [bodyUsed] false, which no
    statement below looks at. *)
Definition json (v : value) : M value :=
  fun w =>
    match v with
    | VUndefined => (Throw (TypeError "property of undefined"), w)
    | VNull => (Throw (TypeError "property of null"), w)
    | VResponse ref =>
        match nth_error (heap w) ref with
        | Some r =>
            if bodyUsed r then (Throw (TypeError "body already used"), w)
            else
              let w' := set_heap (update_nth ref mark_used (heap w)) w in
              match body r with
              | Some parsed => (Ret parsed, w')
              | None => (Throw JsonSyntaxError, w')
              end
        | None => (Throw (TypeError "json is not a function"), w)
        end
    | _ => (Throw (TypeError "json is not a function"), w)
    end.

(* ================================================================== *)
(** ** Promises and the timeout wrapper *)
(* ================================================================== *)

Inductive settled : Type :=
| Fulfilled (v : value)
| Rejected (e : error).

(** The promise fetch returns: it settles [t] milliseconds after the call,
    or never. *)
Inductive promise : Type :=
| SettlesAt (t : N) (s : settled)
| NeverSettles.

Inductive promise_state : Type :=
| Pending
| Settled (s : settled).

(** [resolve] and [reject] of a promise that has settled do nothing. *)
Definition settle (s : settled) (p : promise_state) : promise_state :=
  match p with
  | Pending => Settled s
  | Settled _ => p
  end.

(** clearTimeout takes an armed timer out; on any other it does nothing. *)
Definition clearTimeout (s : timer_status) : timer_status :=
  match s with
  | Armed => Cleared
  | _ => s
  end.

(** The promise [timeoutPromise] builds: its timer and its own state. *)
Record tp_state : Type := mkTp {
  tp_timer : timer_status;
  tp_outer : promise_state
}.

(** What the event loop can deliver to it: the timer is due, or the
    wrapped promise has settled. *)
Inductive tp_event : Type :=
| TimerDue
| InnerSettled (s : settled).

(** After [setTimeout(..., ms)] and [promise.then(...)]. *)
Definition tp_init : tp_state := mkTp Armed Pending.

(** The three callbacks of [timeoutPromise]. A timer that is not armed
    any more does not run its callback. *)
Definition tp_step (st : tp_state) (ev : tp_event) : tp_state :=
  match ev with
  | TimerDue =>
      match tp_timer st with
      | Armed => mkTp Fired (settle (Rejected PromiseTimeout) (tp_outer st))
      | _ => st
      end
  | InnerSettled (Fulfilled res) =>
      mkTp (clearTimeout (tp_timer st)) (settle (Fulfilled res) (tp_outer st))
  | InnerSettled (Rejected err) =>
      mkTp (clearTimeout (tp_timer st)) (settle (Rejected err) (tp_outer st))
  end.

Definition tp_run (evs : list tp_event) (st : tp_state) : tp_state :=
  fold_left tp_step evs st.

(** The order in which the event loop delivers the two events of a call:
    by time, and by the scheduler when both are due at once. *)
Definition schedule (timer_first : bool) (ms : N) (p : promise) : list tp_event :=
  match p with
  | NeverSettles => [TimerDue]
  | SettlesAt t s =>
      if (t <? ms)%N then [InnerSettled s; TimerDue]
      else if (ms <? t)%N then [TimerDue; InnerSettled s]
      else if timer_first then [TimerDue; InnerSettled s]
      else [InnerSettled s; TimerDue]
  end.

(** [await timeoutPromise(ms, promise)]. The caller goes on with what the
    promise of the wrapper settled with; the event that comes second is
    delivered too, and finds the promise settled. *)
Definition timeoutPromise (ms : N) (p : promise) : M value :=
  fun w =>
    let st := tp_run (schedule (timer_first_on_tie w) ms p) tp_init in
    let w' := record_timer (tp_timer st) w in
    match tp_outer st with
    | Settled (Fulfilled res) => (Ret res, w')
    | Settled (Rejected err) => (Throw err, w')
    | Pending => (Hang, w')
    end.

(** [fetch(url, init)]: sends the request and returns a promise at once.
    The Response it will resolve with is the next object of the heap. *)
Definition fetch (url : string) (init : Init) : M promise :=
  fun w =>
    let w1 := log (EvFetch url init) w in
    match network w with
    | [] => (Ret NeverSettles, w1)
    | Silent :: rest => (Ret NeverSettles, set_network rest w1)
    | Fails t reason :: rest =>
        (Ret (SettlesAt t (Rejected (FetchRejected reason))), set_network rest w1)
    | Responds t st b :: rest =>
        (Ret (SettlesAt t (Fulfilled (VResponse (List.length (heap w))))),
         alloc (mkResponse st b false) (set_network rest w1))
    end.

(** [await promise] with no timer. *)
Definition await (p : promise) : M value :=
  fun w =>
    match p with
    | SettlesAt _ (Fulfilled res) => (Ret res, w)
    | SettlesAt _ (Rejected err) => (Throw err, w)
    | NeverSettles => (Hang, w)
    end.

(* ================================================================== *)
(** ** What api.js imports *)
(* ================================================================== *)

(** The constants and the helper of components/Common, which api.js
    imports, and the built-ins whose result is only ever passed on; all
    of them are taken to return. *)
Class Platform : Type := {
  API_URI : string;
  VIDEOS_API : string;
  ARCHIVES_API : string;
  OTP_API : string;
  DEFAULT_LIMIT : value;
  emptyToNull : value -> value;
  parseInt : value -> value;
  JSON_stringify : value -> string;
  to_string : value -> string;           (* `${v}` *)
  encodeURIComponent : value -> string;
  join : list value -> string -> string  (* items.join(sep) *)
}.

Section Api.

Context {platform : Platform}.

(* ================================================================== *)
(** ** The guarded executor *)
(* ================================================================== *)

Definition wrol_toast : Toast :=
  mkToast "error" "WROL Mode is enabled!"
    (VStr "This functionality is disabled while WROL Mode is enabled!") 5000.

(** [ms = 60_000] *)
Definition default_ms (ms : option N) : N :=
  match ms with
  | Some t => t
  | None => 60000%N
  end.

(** [let init = {method}; if (body !== undefined) init.body = JSON.stringify(body);] *)
Definition make_init (meth : string) (body : value) : Init :=
  mkInit meth
    (if negb (strict_eq body VUndefined) then Some (JSON_stringify body) else None).

Definition apiCall (url : string) (meth : string) (body : value) (ms : option N)
  : M value :=
  let init := make_init meth body in
  promise <- fetch url init ;;
  try_catch
    (response <- timeoutPromise (default_ms ms) promise ;;
     st <- get response "status" ;;
     st' <- get response "status" ;;
     if num_le (VNum 200) st && num_lt st' (VNum 300) then
       ret response
     else
       copy <- clone response ;;
       parsed <- json copy ;;
       code <- get parsed "code" ;;
       st'' <- get response "status" ;;
       when (strict_eq st'' (VNum 403) && strict_eq code (VNum 17)) (toast wrol_toast) ;;
       ret response)
    (fun e =>
       console LError [CErr e] ;;
       throw e).

(** Convenience functions for API calls. *)
Definition apiGet (url : string) : M value := apiCall url "GET" VUndefined None.
Definition apiDelete (url : string) : M value := apiCall url "DELETE" VUndefined None.
Definition apiPost (url : string) (body : value) : M value := apiCall url "POST" body None.
Definition apiPut (url : string) (body : value) : M value := apiCall url "PUT" body None.
Definition apiPatch (url : string) (body : value) : M value := apiCall url "PATCH" body None.

(* ================================================================== *)
(** ** The operation functions *)
(* ================================================================== *)

(** [if (c) { o[k] = v; }], giving the object as it is afterwards. *)
Definition assign_if (c : value) (k : string) (v : value)
  (fields : list (string * value)) : list (string * value) :=
  if truthy c then obj_set k v fields else fields.

(** [toast({type: 'error', title, description, time: 5000})] *)
Definition error_toast (ttl descr : string) : Toast :=
  mkToast "error" ttl (VStr descr) 5000.

(** [items.join(sep)] *)
Definition array_join (v : value) (sep : string) : M string :=
  match v with
  | VArr items => ret (join items sep)
  | VUndefined => throw (TypeError "property of undefined")
  | VNull => throw (TypeError "property of null")
  | _ => throw (TypeError "join is not a function")
  end.

(** [delete o[k]], giving the object as it is afterwards. *)
Definition delete_prop (v : value) (k : string) : M value :=
  match v with
  | VObj fields => ret (VObj (obj_delete k fields))
  | VUndefined => throw (TypeError "property of undefined")
  | VNull => throw (TypeError "property of null")
  | _ => ret v
  end.

Definition updateChannel (id channel : value) : M value :=
  let channel := emptyToNull channel in
  apiPut (VIDEOS_API ++ "/channels/" ++ to_string id)%string channel.

Definition createChannel (channel : value) : M value :=
  let channel := emptyToNull channel in
  apiPost (VIDEOS_API ++ "/channels")%string channel.

Definition deleteChannel (channelId : value) : M value :=
  apiDelete (VIDEOS_API ++ "/channels/" ++ to_string channelId)%string.

Definition getChannels : M value :=
  response <- apiGet (VIDEOS_API ++ "/channels")%string ;;
  st <- get response "status" ;;
  if strict_eq st (VNum 200) then
    data <- json response ;;
    get data "channels"
  else
    toast (error_toast "Unexpected server response"
             "Failed to get channels.  See server logs.") ;;
    ret VUndefined.

Definition getChannel (id : value) : M value :=
  response <- apiGet (VIDEOS_API ++ "/channels/" ++ to_string id)%string ;;
  data <- json response ;;
  get data "channel".

Definition searchVideos
  (offset limit channelId searchStr order_by tagNames headline : value) : M value :=
  let offset := parseInt (or_else offset (VNum 0)) in
  let limit := parseInt (or_else limit DEFAULT_LIMIT) in
  let body := [("offset", offset); ("limit", limit);
               ("order_by", or_else order_by (VStr "rank"))] in
  let body := assign_if searchStr "search_str" searchStr body in
  let body := assign_if channelId "channel_id" (parseInt channelId) body in
  let body := assign_if tagNames "tag_names" tagNames body in
  let body := assign_if headline "headline" (VBool true) body in
  console LDebug [CStr "searching videos"; CVal (VObj body)] ;;
  response <- apiPost (VIDEOS_API ++ "/search")%string (VObj body) ;;
  st <- get response "status" ;;
  if strict_eq st (VNum 200) then
    data <- json response ;;
    file_groups <- get data "file_groups" ;;
    totals <- get data "totals" ;;
    total <- get totals "file_groups" ;;
    ret (VArr [file_groups; total])
  else
    toast (error_toast "Unexpected server response"
             "Failed to search videos.  See server logs.") ;;
    ret (VArr [VArr []; VNum 0]).

Definition getVideo (video_id : value) : M value :=
  response <- apiGet (VIDEOS_API ++ "/video/" ++ to_string video_id)%string ;;
  data <- json response ;;
  file_group <- get data "file_group" ;;
  prev <- get data "prev" ;;
  next <- get data "next" ;;
  ret (VArr [file_group; prev; next]).

Definition deleteVideos (videoIds : value) : M value :=
  i <- array_join videoIds "," ;;
  response <- apiDelete (VIDEOS_API ++ "/video/" ++ i)%string ;;
  st <- get response "status" ;;
  when (negb (strict_eq st (VNum 204)))
    (toast (error_toast "Unexpected server response"
              "Failed to delete videos.  See server logs.")) ;;
  ret VUndefined.

Definition getDirectories (search_str : value) : M value :=
  let form_data := VObj [("search_str", or_else search_str VNull)] in
  response <- apiPost (API_URI ++ "/files/directories")%string form_data ;;
  st <- get response "status" ;;
  if strict_eq st (VNum 200) then json response
  else ret (VArr []).

(** The shape of most readers: the parsed body on a 200, and otherwise a
    toast and no return value. *)
Definition getStatus : M value :=
  response <- apiGet (API_URI ++ "/status")%string ;;
  st <- get response "status" ;;
  if strict_eq st (VNum 200) then json response
  else
    toast (error_toast "Unexpected server response" "Could not get server status") ;;
    ret VUndefined.

Definition getSettings : M value :=
  response <- apiGet (API_URI ++ "/settings")%string ;;
  st <- get response "status" ;;
  if strict_eq st (VNum 200) then json response
  else
    toast (error_toast "Unexpected server response" "Could not get settings") ;;
    ret VUndefined.

Definition saveSettings (settings : value) : M value :=
  apiPatch (API_URI ++ "/settings")%string settings.

Definition getDownloads : M value :=
  response <- apiGet (API_URI ++ "/download")%string ;;
  st <- get response "status" ;;
  if strict_eq st (VNum 200) then json response
  else
    toast (error_toast "Unexpected server response" "Could not get downloads") ;;
    ret VUndefined.

Definition validateRegex (regex : value) : M value :=
  response <- apiPost (API_URI ++ "/valid_regex")%string (VObj [("regex", regex)]) ;;
  data <- json response ;;
  get data "valid".

Definition getVideosStatistics : M value :=
  response <- apiGet (VIDEOS_API ++ "/statistics")%string ;;
  st <- get response "status" ;;
  if strict_eq st (VNum 200) then
    data <- json response ;;
    get data "statistics"
  else
    toast (error_toast "Unexpected server response" "Could not get statistics") ;;
    ret VUndefined.

Definition downloadChannel (channelId : value) : M value :=
  let url := (VIDEOS_API ++ "/channels/download/" ++ to_string channelId)%string in
  response <- apiPost url VUndefined ;;
  st <- get response "status" ;;
  (if strict_eq st (VNum 400) then
     parsed <- json response ;;
     code <- get parsed "code" ;;
     when (strict_eq code (VNum 30))
       (toast (error_toast "Cannot Download!"
                 "This channel does not have a download record.  Modify the frequency."))
   else ret tt) ;;
  ret VUndefined.

(** The one operation that calls fetch itself. *)
Definition refreshChannel (channelId : value) : M value :=
  let url := (VIDEOS_API ++ "/channels/refresh/" ++ to_string channelId)%string in
  promise <- fetch url (mkInit "POST" None) ;;
  _ <- await promise ;;
  ret VUndefined.

Definition encryptOTP (otp plaintext : value) : M value :=
  let body := VObj [("otp", otp); ("plaintext", plaintext)] in
  response <- apiPost (OTP_API ++ "/encrypt_otp")%string body ;;
  st <- get response "status" ;;
  if strict_eq st (VNum 200) then json response
  else
    toast (error_toast "Error!" "Failed to encrypt OTP") ;;
    ret VUndefined.

Definition decryptOTP (otp ciphertext : value) : M value :=
  let body := VObj [("otp", otp); ("ciphertext", ciphertext)] in
  response <- apiPost (OTP_API ++ "/decrypt_otp")%string body ;;
  st <- get response "status" ;;
  if strict_eq st (VNum 200) then json response
  else
    toast (error_toast "Error!" "Failed to decrypt OTP") ;;
    ret VUndefined.

Definition getCategories : M value :=
  response <- apiGet (API_URI ++ "/inventory/categories")%string ;;
  st <- get response "status" ;;
  if strict_eq st (VNum 200) then
    data <- json response ;;
    get data "categories"
  else
    toast (error_toast "Unexpected server response" "Could not get categories") ;;
    ret VUndefined.

Definition getBrands : M value :=
  response <- apiGet (API_URI ++ "/inventory/brands")%string ;;
  st <- get response "status" ;;
  if strict_eq st (VNum 200) then
    data <- json response ;;
    get data "brands"
  else
    toast (error_toast "Unexpected server response" "Could not get brands") ;;
    ret VUndefined.

Definition getInventories : M value :=
  response <- apiGet (API_URI ++ "/inventory")%string ;;
  st <- get response "status" ;;
  if strict_eq st (VNum 200) then
    data <- json response ;;
    get data "inventories"
  else
    toast (error_toast "Unexpected server response" "Could not get inventories") ;;
    ret VUndefined.

Definition getInventory (inventoryId : value) : M value :=
  response <- apiGet (API_URI ++ "/inventory/" ++ to_string inventoryId)%string ;;
  st <- get response "status" ;;
  if strict_eq st (VNum 200) then json response
  else
    toast (error_toast "Unexpected server response" "Could not get inventory") ;;
    ret VUndefined.

Definition saveInventory (inventory : value) : M value :=
  apiPost (API_URI ++ "/inventory")%string inventory.

Definition updateInventory (inventoryId inventory : value) : M value :=
  inventory <- delete_prop inventory "id" ;;
  apiPut (API_URI ++ "/inventory/" ++ to_string inventoryId)%string inventory.

Definition deleteInventory (inventoryId : value) : M value :=
  apiDelete (API_URI ++ "/inventory/" ++ to_string inventoryId)%string.

Definition getItems (inventoryId : value) : M value :=
  response <- apiGet (API_URI ++ "/inventory/" ++ to_string inventoryId ++ "/item")%string ;;
  json response.

Definition saveItem (inventoryId item : value) : M value :=
  apiPost (API_URI ++ "/inventory/" ++ to_string inventoryId ++ "/item")%string item.

Definition updateItem (itemId item : value) : M value :=
  let item := emptyToNull item in
  apiPut (API_URI ++ "/inventory/item/" ++ to_string itemId)%string item.

Definition deleteItems (itemIds : value) : M value :=
  i <- array_join itemIds "," ;;
  _ <- apiDelete (API_URI ++ "/inventory/item/" ++ i)%string ;;
  ret VUndefined.

Definition deleteArchives (archiveIds : value) : M value :=
  i <- array_join archiveIds "," ;;
  try_catch
    (apiDelete (API_URI ++ "/archive/" ++ i)%string)
    (fun e =>
       console LError [CErr e] ;;
       toast (error_toast "Unexpected server response" "Unable to delete archives") ;;
       ret VUndefined).

Definition searchArchives
  (offset limit domain searchStr order tagNames headline : value) : M value :=
  let offset := parseInt (or_else offset (VNum 0)) in
  let limit := parseInt (or_else limit DEFAULT_LIMIT) in
  let body := [("offset", offset); ("limit", limit)] in
  let body := assign_if domain "domain" domain body in
  let body := assign_if searchStr "search_str" searchStr body in
  let body := assign_if order "order_by" order body in
  let body := assign_if tagNames "tag_names" tagNames body in
  let body := assign_if headline "headline" (VBool true) body in
  console LDebug [CStr "searching archives"; CVal (VObj body)] ;;
  response <- apiPost (ARCHIVES_API ++ "/search")%string (VObj body) ;;
  st <- get response "status" ;;
  if strict_eq st (VNum 200) then
    data <- json response ;;
    file_groups <- get data "file_groups" ;;
    totals <- get data "totals" ;;
    total <- get totals "file_groups" ;;
    ret (VArr [file_groups; total])
  else
    toast (error_toast "Unable to search archives"
             "Cannot search archives.  See server logs.") ;;
    ret (VArr [VArr []; VNum 0]).

Definition fetchDomains : M value :=
  response <- apiGet (ARCHIVES_API ++ "/domains")%string ;;
  st <- get response "status" ;;
  if strict_eq st (VNum 200) then
    data <- json response ;;
    domains <- get data "domains" ;;
    totals <- get data "totals" ;;
    total <- get totals "domains" ;;
    ret (VArr [domains; total])
  else
    toast (error_toast "Domains Error" "Unable to fetch Domains.  See server logs.") ;;
    ret VUndefined.

Definition getArchive (archiveId : value) : M value :=
  response <- apiGet (ARCHIVES_API ++ "/" ++ to_string archiveId)%string ;;
  st <- get response "status" ;;
  if strict_eq st (VNum 200) then
    data <- json response ;;
    file_group <- get data "file_group" ;;
    history <- get data "history" ;;
    ret (VArr [file_group; history])
  else
    toast (error_toast "Archive Error" "Unable to get Archive.  See server logs.") ;;
    ret VUndefined.

Definition postDownload
  (urls downloader frequency sub_downloader excludedURLs destination tagNames : value)
  : M value :=
  if negb (truthy downloader) then
    toast (error_toast "Failed to submit download"
             "downloader is required, but was not provided") ;;
    throw DownloaderRequired
  else
    let body := [("urls", urls); ("downloader", downloader);
                 ("frequency", or_else frequency VNull);
                 ("excluded_urls", excludedURLs);
                 ("destination", or_else destination VNull)] in
    let body := assign_if sub_downloader "sub_downloader" sub_downloader body in
    let body := assign_if tagNames "tag_names" tagNames body in
    response <- apiPost (API_URI ++ "/download")%string (VObj body) ;;
    ret response.

Definition killDownload (download_id : value) : M value :=
  response <- apiPost (API_URI ++ "/download/" ++ to_string download_id ++ "/kill")%string
                VUndefined ;;
  ret response.

Definition killDownloads : M value :=
  response <- apiPost (API_URI ++ "/download/kill")%string VUndefined ;;
  ret response.

Definition startDownloads : M value :=
  response <- apiPost (API_URI ++ "/download/enable")%string VUndefined ;;
  ret response.

Definition getDownloaders : M value :=
  try_catch
    (response <- apiGet (API_URI ++ "/downloaders")%string ;;
     json response)
    (fun _ => ret (VObj [("downloaders", VArr [])])).

Definition deleteDownload (downloadId : value) : M value :=
  try_catch
    (response <- apiDelete (API_URI ++ "/download/" ++ to_string downloadId)%string ;;
     st <- get response "status" ;;
     when (negb (strict_eq st (VNum 204)))
       (toast (error_toast "Unable to delete"
                 "Unable to delete the download.  See server logs.")) ;;
     ret VUndefined)
    (fun _ => ret VNull).

Definition filesSearch
  (offset limit searchStr mimetypes model tagNames headline : value) : M value :=
  let body := [("search_str", searchStr); ("offset", parseInt offset);
               ("limit", parseInt limit)] in
  let body := assign_if mimetypes "mimetypes" mimetypes body in
  let body := assign_if model "model" model body in
  let body := assign_if tagNames "tag_names" tagNames body in
  let body := assign_if headline "headline" (VBool true) body in
  console LDebug [CStr "searching files"; CVal (VObj body)] ;;
  response <- apiPost (API_URI ++ "/files/search")%string (VObj body) ;;
  st <- get response "status" ;;
  if strict_eq st (VNum 200) then
    data <- json response ;;
    file_groups <- get data "file_groups" ;;
    totals <- get data "totals" ;;
    total <- get totals "file_groups" ;;
    ret (VArr [file_groups; total])
  else
    toast (error_toast "Unable to search files"
             "Cannot search files.  See server logs.") ;;
    ret (VArr [VNull; VNull]).

Definition refreshFiles : M value :=
  apiPost (API_URI ++ "/files/refresh")%string VUndefined.

Definition refreshDirectoryFiles (directory : value) : M value :=
  let body := VObj [("paths", VArr [directory])] in
  try_catch
    (apiPost (API_URI ++ "/files/refresh")%string body)
    (fun e =>
       console LError [CErr e] ;;
       toast (error_toast "Unable to refresh directory"
                "Cannot refresh the files in the directory.  See server logs.") ;;
       ret VUndefined).

Definition getFiles (directories : value) : M value :=
  console LDebug [CStr ("getFiles " ++ to_string directories)%string] ;;
  let body := VObj [("directories", or_else directories (VArr []))] in
  response <- apiPost (API_URI ++ "/files")%string body ;;
  data <- json response ;;
  files <- get data "files" ;;
  ret files.

Definition deleteFile (file : value) : M value :=
  let body := VObj [("file", file)] in
  _ <- apiPost (API_URI ++ "/files/delete")%string body ;;
  ret VUndefined.

Definition fetchFilesProgress : M value :=
  response <- apiGet (API_URI ++ "/files/refresh_progress")%string ;;
  st <- get response "status" ;;
  if strict_eq st (VNum 200) then
    parsed <- json response ;;
    get parsed "progress"
  else ret VUndefined.

Definition getHotspotStatus : M value :=
  response <- getSettings ;;
  get response "hotspot_status".

Definition setHotspot (on : value) : M value :=
  response <- (if truthy on
               then apiPost (API_URI ++ "/hotspot/on")%string VUndefined
               else apiPost (API_URI ++ "/hotspot/off")%string VUndefined) ;;
  st <- get response "status" ;;
  if strict_eq st (VNum 204) then ret VNull
  else
    parsed <- json response ;;
    code <- get parsed "code" ;;
    (if strict_eq code (VNum 34)
     then toast (error_toast "Unsupported!" "Hotspot is only supported on a Raspberry Pi!")
     else toast (error_toast "Error!" "Could not modify hotspot.  See server logs.")) ;;
    ret VUndefined.

Definition getThrottleStatus : M value :=
  response <- getSettings ;;
  get response "throttle_status".

Definition setThrottle (on : value) : M value :=
  response <- (if truthy on
               then apiPost (API_URI ++ "/throttle/on")%string VUndefined
               else apiPost (API_URI ++ "/throttle/off")%string VUndefined) ;;
  st <- get response "status" ;;
  if strict_eq st (VNum 204) then ret VNull
  else
    parsed <- json response ;;
    code <- get parsed "code" ;;
    (if strict_eq code (VNum 34)
     then toast (error_toast "Unsupported!" "Throttle is only supported on a Raspberry Pi!")
     else toast (error_toast "Error!" "Could not modify throttle.  See server logs.")) ;;
    ret VUndefined.

Definition getMapImportStatus : M value :=
  response <- apiGet (API_URI ++ "/map/files")%string ;;
  st <- get response "status" ;;
  if strict_eq st (VNum 200) then json response
  else
    toast (error_toast "Unexpected server response" "Could not get import status") ;;
    ret VUndefined.

Definition importMapFiles (paths : value) : M value :=
  let body := VObj [("files", paths)] in
  response <- apiPost (API_URI ++ "/map/import")%string body ;;
  st <- get response "status" ;;
  if strict_eq st (VNum 204) then ret VNull
  else
    toast (error_toast "Error!" "Could not start import!  See server logs.") ;;
    ret VUndefined.

Definition clearCompletedDownloads : M value :=
  response <- apiPost (API_URI ++ "/download/clear_completed")%string VUndefined ;;
  st <- get response "status" ;;
  if strict_eq st (VNum 204) then ret VNull
  else
    toast (error_toast "Error!" "Could not clear completed downloads!  See server logs.") ;;
    ret VUndefined.

Definition clearFailedDownloads : M value :=
  response <- apiPost (API_URI ++ "/download/clear_failed")%string VUndefined ;;
  st <- get response "status" ;;
  if strict_eq st (VNum 204) then ret VNull
  else
    toast (error_toast "Error!" "Could not clear failed downloads!  See server logs.") ;;
    ret VUndefined.

Definition getStatistics : M value :=
  response <- apiGet (API_URI ++ "/statistics")%string ;;
  st <- get response "status" ;;
  if strict_eq st (VNum 200) then
    contents <- json response ;;
    ret contents
  else
    toast (error_toast "Error!" "Unable to get file statistics") ;;
    ret VUndefined.

Definition getEvents (after : value) : M value :=
  let uri := (API_URI ++ "/events/feed")%string in
  let uri := if truthy after
             then (uri ++ "?after=" ++ encodeURIComponent after)%string else uri in
  response <- apiGet uri ;;
  st <- get response "status" ;;
  if strict_eq st (VNum 200) then json response
  else ret VUndefined.

Definition getTags : M value :=
  let uri := (API_URI ++ "/tag")%string in
  response <- apiGet uri ;;
  st <- get response "status" ;;
  if strict_eq st (VNum 200) then
    body <- json response ;;
    get body "tags"
  else ret VUndefined.

Definition addTag (fileGroup name : value) : M value :=
  let body := [("tag_name", name)] in
  id <- get fileGroup "id" ;;
  primary_path <- get fileGroup "primary_path" ;;
  path <- get fileGroup "path" ;;
  let body :=
    if truthy id then obj_set "file_group_id" id body
    else if truthy primary_path then obj_set "file_group_primary_path" primary_path body
    else if truthy path then obj_set "file_group_primary_path" path body
    else body in
  let uri := (API_URI ++ "/files/tag")%string in
  response <- apiPost uri (VObj body) ;;
  st <- get response "status" ;;
  when (negb (strict_eq st (VNum 201)))
    (console LError [CStr "Failed to add tag"]) ;;
  ret VUndefined.

Definition removeTag (fileGroup name : value) : M value :=
  let body := [("tag_name", name)] in
  id <- get fileGroup "id" ;;
  primary_path <- get fileGroup "primary_path" ;;
  path <- get fileGroup "path" ;;
  let body :=
    if truthy id then obj_set "file_group_id" id body
    else if truthy primary_path then obj_set "file_group_primary_path" primary_path body
    else if truthy path then obj_set "file_group_primary_path" path body
    else body in
  let uri := (API_URI ++ "/files/untag")%string in
  response <- apiPost uri (VObj body) ;;
  st <- get response "status" ;;
  when (negb (strict_eq st (VNum 204)))
    (console LError [CStr "Failed to remove tag"]) ;;
  ret VUndefined.

Definition saveTag (name color id : value) : M value :=
  let body := VObj [("name", name); ("color", color)] in
  let uri := (API_URI ++ "/tag")%string in
  let uri := if truthy id then (uri ++ "/" ++ to_string id)%string else uri in
  response <- apiPost uri body ;;
  st <- get response "status" ;;
  (if truthy id && strict_eq st (VNum 200) then
     toast (mkToast "info" "Saved tag"
              (VStr ("Saved tag: " ++ to_string name)%string) 2000)
   else if strict_eq st (VNum 201) then
     toast (mkToast "info" "Created new tag"
              (VStr ("Created new tag: " ++ to_string name)%string) 2000)
   else
     console LError [CStr "Failed to create new tag"] ;;
     toast (error_toast "Error!" "Unable to save tag")) ;;
  ret VUndefined.

Definition deleteTag (id name : value) : M value :=
  let uri := (API_URI ++ "/tag/" ++ to_string id)%string in
  response <- apiDelete uri ;;
  st <- get response "status" ;;
  (if strict_eq st (VNum 400) then
     content <- json response ;;
     code <- get content "code" ;;
     if strict_eq code (VNum 38) then
       message <- get content "message" ;;
       toast (mkToast "error" "Error!" message 5000)
     else ret tt
   else if negb (strict_eq st (VNum 204)) then
     console LError [CStr "Failed to delete tag"] ;;
     toast (mkToast "error" "Error!"
              (VStr ("Unable to delete tag: " ++ to_string name)%string) 5000)
   else ret tt) ;;
  ret VUndefined.

Definition fetchFile (path : value) : M value :=
  let uri := (API_URI ++ "/files/file")%string in
  let body := VObj [("file", path)] in
  response <- apiPost uri body ;;
  st <- get response "status" ;;
  if strict_eq st (VNum 200) then
    content <- json response ;;
    get content "file"
  else
    console LError [CStr "Unable to fetch file dict!  See client logs."] ;;
    ret VUndefined.

Definition sendNotification (message url : value) : M value :=
  let body := VObj [("message", message); ("url", url)] in
  response <- apiPost (API_URI ++ "/notify")%string body ;;
  st <- get response "status" ;;
  (if strict_eq st (VNum 201) then
     toast (mkToast "success" "Shared" (VStr "Your share was sent") 2000)
   else
     toast (mkToast "error" "Error" (VStr "Your share failed to send!") 5000) ;;
     console LError [CStr "Failed to share"]) ;;
  ret VUndefined.

Definition searchDirectories (name : value) : M value :=
  let body := VObj [("name", or_else name (VStr ""))] in
  response <- apiPost (API_URI ++ "/files/search_directories")%string body ;;
  st <- get response "status" ;;
  if strict_eq st (VNum 204) then ret (VArr [])
  else if strict_eq st (VNum 200) then
    content <- json response ;;
    ret content
  else
    toast (mkToast "error" "Error" (VStr "Failed to search directories!") 5000) ;;
    ret VUndefined.

(** [String(i)] for an index [i]: the key under which an array-like
    object has its [i]th item. *)
Definition index_key (i : nat) : string := NilEmpty.string_of_uint (Nat.to_uint i).

Fixpoint characters (s : string) : list value :=
  match s with
  | EmptyString => []
  | String c rest => VStr (String c EmptyString) :: characters rest
  end.

(** [v[0], ..., v[v.length - 1]], what [for (let i = 0; i < v.length; i++)]
    goes through: the items of an array, the characters of a string, the
    properties ["0"], ["1"], ... of an array-like object (a FileList) up
    to its [length], and nothing of a value that has no [length], for
    [i < undefined] is false. A [length] that is not a number is taken
    the same way, as [num_lt] does; JavaScript would convert a string or
    a boolean first, which no array and no FileList has as a length. *)
Definition items_of (v : value) : list value :=
  match v with
  | VArr items => items
  | VStr s => characters s
  | VObj fields =>
      match obj_get "length" fields with
      | VNum n => map (fun i => obj_get (index_key i) fields) (seq 0 (Z.to_nat n))
      | _ => []
      end
  | _ => []
  end.

(** The same, as the loop gets them: [v.length] of [undefined] or [null]
    is a TypeError. *)
Definition indexed (v : value) : M (list value) :=
  match v with
  | VUndefined => throw (TypeError "property of undefined")
  | VNull => throw (TypeError "property of null")
  | _ => ret (items_of v)
  end.

(** The form is filled (one [file] part for each of [files], then the
    destination) and logged. Nothing is sent. *)
Definition uploadFiles (files destination : value) : M value :=
  items <- indexed files ;;
  let data := map (fun f => ("file", f)) items in
  let data := data ++ [("destination", destination)] in
  console LLog [CVal (VObj data)] ;;
  ret VUndefined.

(* ================================================================== *)
(** ** The exports *)
(* ================================================================== *)

Inductive operation : Type :=
| UpdateChannel | CreateChannel | DeleteChannel | GetChannels | GetChannel
| SearchVideos | GetVideo | DeleteVideos | GetDirectories | GetStatus
| GetSettings | SaveSettings | GetDownloads | ValidateRegex | GetVideosStatistics
| DownloadChannel | RefreshChannel | EncryptOTP | DecryptOTP | GetCategories
| GetBrands | GetInventories | GetInventory | SaveInventory | UpdateInventory
| DeleteInventory | GetItems | SaveItem | UpdateItem | DeleteItems
| DeleteArchives | SearchArchives | FetchDomains | GetArchive | PostDownload
| KillDownload | KillDownloads | StartDownloads | GetDownloaders | DeleteDownload
| FilesSearch | RefreshFiles | RefreshDirectoryFiles | GetFiles | DeleteFile
| FetchFilesProgress | GetHotspotStatus | SetHotspot | GetThrottleStatus | SetThrottle
| GetMapImportStatus | ImportMapFiles | ClearCompletedDownloads | ClearFailedDownloads
| GetStatistics | GetEvents | GetTags | AddTag | RemoveTag
| SaveTag | DeleteTag | FetchFile | SendNotification | SearchDirectories
| UploadFiles.

(** The [n]th argument of a call; one that was not passed is [undefined]. *)
Definition arg (n : nat) (args : list value) : value := nth n args VUndefined.

(** A call of an exported function with the given arguments. *)
Definition call (op : operation) (args : list value) : M value :=
  let a := fun n => arg n args in
  match op with
  | UpdateChannel => updateChannel (a 0%nat) (a 1%nat)
  | CreateChannel => createChannel (a 0%nat)
  | DeleteChannel => deleteChannel (a 0%nat)
  | GetChannels => getChannels
  | GetChannel => getChannel (a 0%nat)
  | SearchVideos =>
      searchVideos (a 0%nat) (a 1%nat) (a 2%nat) (a 3%nat) (a 4%nat) (a 5%nat) (a 6%nat)
  | GetVideo => getVideo (a 0%nat)
  | DeleteVideos => deleteVideos (a 0%nat)
  | GetDirectories => getDirectories (a 0%nat)
  | GetStatus => getStatus
  | GetSettings => getSettings
  | SaveSettings => saveSettings (a 0%nat)
  | GetDownloads => getDownloads
  | ValidateRegex => validateRegex (a 0%nat)
  | GetVideosStatistics => getVideosStatistics
  | DownloadChannel => downloadChannel (a 0%nat)
  | RefreshChannel => refreshChannel (a 0%nat)
  | EncryptOTP => encryptOTP (a 0%nat) (a 1%nat)
  | DecryptOTP => decryptOTP (a 0%nat) (a 1%nat)
  | GetCategories => getCategories
  | GetBrands => getBrands
  | GetInventories => getInventories
  | GetInventory => getInventory (a 0%nat)
  | SaveInventory => saveInventory (a 0%nat)
  | UpdateInventory => updateInventory (a 0%nat) (a 1%nat)
  | DeleteInventory => deleteInventory (a 0%nat)
  | GetItems => getItems (a 0%nat)
  | SaveItem => saveItem (a 0%nat) (a 1%nat)
  | UpdateItem => updateItem (a 0%nat) (a 1%nat)
  | DeleteItems => deleteItems (a 0%nat)
  | DeleteArchives => deleteArchives (a 0%nat)
  | SearchArchives =>
      searchArchives (a 0%nat) (a 1%nat) (a 2%nat) (a 3%nat) (a 4%nat) (a 5%nat) (a 6%nat)
  | FetchDomains => fetchDomains
  | GetArchive => getArchive (a 0%nat)
  | PostDownload =>
      postDownload (a 0%nat) (a 1%nat) (a 2%nat) (a 3%nat) (a 4%nat) (a 5%nat) (a 6%nat)
  | KillDownload => killDownload (a 0%nat)
  | KillDownloads => killDownloads
  | StartDownloads => startDownloads
  | GetDownloaders => getDownloaders
  | DeleteDownload => deleteDownload (a 0%nat)
  | FilesSearch =>
      filesSearch (a 0%nat) (a 1%nat) (a 2%nat) (a 3%nat) (a 4%nat) (a 5%nat) (a 6%nat)
  | RefreshFiles => refreshFiles
  | RefreshDirectoryFiles => refreshDirectoryFiles (a 0%nat)
  | GetFiles => getFiles (a 0%nat)
  | DeleteFile => deleteFile (a 0%nat)
  | FetchFilesProgress => fetchFilesProgress
  | GetHotspotStatus => getHotspotStatus
  | SetHotspot => setHotspot (a 0%nat)
  | GetThrottleStatus => getThrottleStatus
  | SetThrottle => setThrottle (a 0%nat)
  | GetMapImportStatus => getMapImportStatus
  | ImportMapFiles => importMapFiles (a 0%nat)
  | ClearCompletedDownloads => clearCompletedDownloads
  | ClearFailedDownloads => clearFailedDownloads
  | GetStatistics => getStatistics
  | GetEvents => getEvents (a 0%nat)
  | GetTags => getTags
  | AddTag => addTag (a 0%nat) (a 1%nat)
  | RemoveTag => removeTag (a 0%nat) (a 1%nat)
  | SaveTag => saveTag (a 0%nat) (a 1%nat) (a 2%nat)
  | DeleteTag => deleteTag (a 0%nat) (a 1%nat)
  | FetchFile => fetchFile (a 0%nat)
  | SendNotification => sendNotification (a 0%nat) (a 1%nat)
  | SearchDirectories => searchDirectories (a 0%nat)
  | UploadFiles => uploadFiles (a 0%nat) (a 1%nat)
  end.

End Api.

(* ================================================================== *)
(** ** Callers of the client: the map page and the archive page *)
(* ================================================================== *)

(** The state of a React component is an object; [this.setState(updates)]
    merges the fields of [updates] into it. *)
Definition setState (updates state : list (string * value)) : list (string * value) :=
  fold_left (fun st kv => obj_set (fst kv) (snd kv) st) updates state.

(** [items.indexOf(x)], with [None] for [-1]. *)
Fixpoint indexOf (x : value) (items : list value) : option nat :=
  match items with
  | [] => None
  | y :: rest =>
      if strict_eq y x then Some O
      else match indexOf x rest with
           | Some n => Some (S n)
           | None => None
           end
  end.

(** [items.splice(index, 1)], giving the array as it is afterwards. *)
Fixpoint splice1 (index : nat) (items : list value) : list value :=
  match items, index with
  | [], _ => []
  | _ :: rest, O => rest
  | y :: rest, S n => y :: splice1 n rest
  end.

Section Callers.

Context {platform : Platform}.

(** Map.js, [ManageMap.fetchImportStatus]: the new state of the
    component, which is the old one when anything was thrown. *)
Definition fetchImportStatus (state : list (string * value))
  : M (list (string * value)) :=
  try_catch
    (importStatus <- getMapImportStatus ;;
     files <- get importStatus "files" ;;
     importing <- get importStatus "importing" ;;
     import_running <- get importStatus "import_running" ;;
     dockerized <- get importStatus "dockerized" ;;
     ret (setState [("files", files); ("importing", importing);
                    ("import_running", import_running);
                    ("dockerized", dockerized)] state))
    (fun e =>
       console LError [CErr e] ;;
       ret state).

(** [paths = paths.concat([files[i].path])] for each [i]. *)
Fixpoint file_paths (files : list value) : M (list value) :=
  match files with
  | [] => ret []
  | file :: rest =>
      path <- get file "path" ;;
      paths <- file_paths rest ;;
      ret (path :: paths)
  end.

(** Map.js, [ManageMap.import]; the click event is only told not to
    submit the form. *)
Definition import (state : list (string * value)) : M (list (string * value)) :=
  let files := obj_get "files" state in
  let selectedPaths := obj_get "selectedPaths" state in
  let state := setState [("ready", VBool false)] state in
  (if negb (truthy selectedPaths)
      || match selectedPaths with VArr [] => true | _ => false end
   then
     items <- indexed files ;;
     paths <- file_paths items ;;
     _ <- importMapFiles (VArr paths) ;;
     ret tt
   else
     _ <- importMapFiles selectedPaths ;;
     ret tt) ;;
  fetchImportStatus state.

(** Map.js, [ManageMap.handleCheckbox], on the array [selectedPaths] of
    the state: what the state is given as its new [selectedPaths]. *)
Definition handleCheckbox (checked pbf : value) (selectedPaths : list value)
  : M (list value) :=
  if strict_eq checked (VBool true) then
    path <- get pbf "path" ;;
    ret (selectedPaths ++ [path])
  else
    path <- get pbf "path" ;;
    match indexOf path selectedPaths with
    | Some index => ret (splice1 index selectedPaths)
    | None => ret selectedPaths
    end.

(** Archive.js, [localDeleteArchive] of [ArchivePage]; [navigate] is the
    function of the router. *)
Definition localDeleteArchive (navigate : Z -> M unit) (data : value) : M unit :=
  id <- get data "id" ;;
  _ <- deleteArchives (VArr [id]) ;;
  toast (mkToast "success" "Archive Deleted"
           (VStr "Archive was successfully deleted.") 2000) ;;
  navigate (-1).

(** Archive.js, [localUpdateArchive] of [ArchivePage]. *)
Definition localUpdateArchive (data : value) : M unit :=
  url <- get data "url" ;;
  _ <- postDownload url (VStr "archive") VUndefined VUndefined VUndefined
         VUndefined VUndefined ;;
  toast (mkToast "success" "Archive Downloading"
           (VStr "Archive update has been scheduled.") 2000).

End Callers.

(* ================================================================== *)
(** ** Vocabulary of the statements *)
(* ================================================================== *)

(** Who wins the race of a call whose fetch settles after [t]
    milliseconds: the fetch when it is strictly earlier than the timer,
    the timer when it is strictly earlier than the fetch, and the
    scheduler's choice when both are due at once. *)
Definition fetch_first (timer_first : bool) (ms t : N) : bool :=
  (t <? ms)%N || (negb (ms <? t)%N && negb timer_first).

(** The next fetch does not settle before the timer of [ms] milliseconds
    fires. *)
Definition times_out (w : World) (ms : N) : bool :=
  match network w with
  | [] => true
  | Silent :: _ => true
  | Responds t _ _ :: _ => negb (fetch_first (timer_first_on_tie w) ms t)
  | Fails t _ :: _ => negb (fetch_first (timer_first_on_tie w) ms t)
  end.

(** The reply is not there when [T] milliseconds have gone by. *)
Definition not_settled_within (T : N) (reply : net_reply) : Prop :=
  match reply with
  | Silent => True
  | Responds t _ _ => (T < t)%N
  | Fails t _ => (T < t)%N
  end.

(** The reply is there before [T] milliseconds have gone by. *)
Definition settles_before (T : N) (reply : net_reply) : Prop :=
  match reply with
  | Silent => False
  | Responds t _ _ => (t < T)%N
  | Fails t _ => (t < T)%N
  end.

(** The transport failures: the timeout and whatever fetch rejects with. *)
Definition is_transport (e : error) : bool :=
  match e with
  | PromiseTimeout | FetchRejected _ => true
  | _ => false
  end.

(** A computation that leaves the network and the timers alone, settles,
    and throws no transport failure. *)
Definition quiet {A : Type} (m : M A) : Prop :=
  forall w,
    network (snd (m w)) = network w /\
    timer_first_on_tie (snd (m w)) = timer_first_on_tie w /\
    timers (snd (m w)) = timers w /\
    fetches (events (snd (m w))) = fetches (events w) /\
    fst (m w) <> Hang /\
    (forall e, fst (m w) = Throw e -> is_transport e = false).

(** The Response a late fetch still resolves with; nobody holds it. *)
Definition orphan (nw : list net_reply) : list Response :=
  match nw with
  | Responds _ st b :: _ => [mkResponse st b false]
  | _ => []
  end.

(** [parsed['code']] of a parsed body. *)
Definition code_of (parsed : value) : value :=
  match parsed with
  | VObj fields => obj_get "code" fields
  | _ => VUndefined
  end.

(** A status outside [200, 300). *)
Definition non_2xx (st : Z) : Prop := st < 200 \/ 300 <= st.

(** What the executor logs, after the request, on an error response it
    hands back: the toast of the WROL mode when the response is a 403
    with code 17, and nothing otherwise. *)
Definition wrol_events (st : Z) (parsed : value) : list event :=
  if (st =? 403) && strict_eq (code_of parsed) (VNum 17)
  then [EvToast wrol_toast] else [].

(** A response that the executor hands back to the operation function:
    a 2xx, or a body that parses to something other than [null]. *)
Definition handed_back (st : Z) (b : option value) : Prop :=
  200 <= st < 300 \/
  (non_2xx st /\
   exists parsed, b = Some parsed /\ parsed <> VUndefined /\ parsed <> VNull).

(** The operations that wrap their call in a [try] with a [catch] of
    their own, and what they return from the [catch]. *)
Definition catches (op : operation) : bool :=
  match op with
  | GetDownloaders | DeleteDownload | DeleteArchives | RefreshDirectoryFiles => true
  | _ => false
  end.

Definition caught_value (op : operation) : value :=
  match op with
  | GetDownloaders => VObj [("downloaders", VArr [])]
  | DeleteDownload => VNull
  | _ => VUndefined
  end.

(** The two operations that read a property of what [getSettings]
    returns. *)
Definition settings_reader (op : operation) : bool :=
  match op with
  | GetHotspotStatus | GetThrottleStatus => true
  | _ => false
  end.

(** The operations that show a toast of their own for every status
    outside [200, 300). *)
Definition notifies (op : operation) : bool :=
  match op with
  | GetChannels | SearchVideos | DeleteVideos | GetStatus | GetSettings
  | GetDownloads | GetVideosStatistics | EncryptOTP | DecryptOTP | GetCategories
  | GetBrands | GetInventories | GetInventory | SearchArchives | FetchDomains
  | GetArchive | DeleteDownload | FilesSearch | GetHotspotStatus | SetHotspot
  | GetThrottleStatus | SetThrottle | GetMapImportStatus | ImportMapFiles
  | ClearCompletedDownloads | ClearFailedDownloads | GetStatistics | SaveTag
  | SendNotification | SearchDirectories => true
  | _ => false
  end.

(** The next request meets a transport failure under the timer of the
    executor: no reply, a rejection, or a response that is late. *)
Definition transport_failure (w : World) : bool :=
  match network w with
  | Responds t _ _ :: _ => negb (fetch_first (timer_first_on_tie w) 60000 t)
  | _ => true
  end.

(** The run [r] from the world [w] has sent a request. *)
Definition sends {A : Type} (w : World) (r : outcome A * World) : Prop :=
  fetches (events (snd r)) <> fetches (events w).

(** [refreshChannel] calls fetch itself: its response does not pass
    through the executor. *)
Definition bypasses (op : operation) : bool :=
  match op with
  | RefreshChannel => true
  | _ => false
  end.

(** Whether the operation shows a toast of its own for the status [st]
    outside [200, 300) and the parsed body [parsed]: [deleteTag] does,
    except on a 400 whose [code] is not 38; [downloadChannel] does only
    on a 400 whose [code] is 30; the others do for every such status or
    for none. *)
Definition notifies_on (op : operation) (st : Z) (parsed : value) : bool :=
  match op with
  | DeleteTag => negb (st =? 400) || strict_eq (code_of parsed) (VNum 38)
  | DownloadChannel => (st =? 400) && strict_eq (code_of parsed) (VNum 30)
  | _ => notifies op
  end.

(** What holds of the run [r] of the operation [op] from the world [w]
    when the reply to its request is an application error: a status
    [st] outside [200, 300) with the parsed body [parsed]. *)
Definition absorbed (op : operation) (st : Z) (parsed : value) (w : World)
  (r : outcome value * World) : Prop :=
  (settings_reader op = false ->
     forall e, fst r = Throw e -> ~ sends w r) /\
  (settings_reader op = true ->
     fst r = Throw (TypeError "property of undefined")) /\
  (sends w r ->
     if notifies_on op st parsed
     then exists shown,
            toast_type shown = "error" /\
            toasts (events (snd r))
              = toasts (events w)
                  ++ (if bypasses op then [] else toasts (wrol_events st parsed))
                  ++ [shown]
     else toasts (events (snd r))
            = toasts (events w)
                ++ (if bypasses op then [] else toasts (wrol_events st parsed))).

(** A computation all of whose requests go out under a timer: on the
    replies of [net_reply] it does not wait for ever, it sets as many
    timers as it sends requests, and none of these timers is active in
    the world it leaves. *)
Definition guarded {A : Type} (m : M A) : Prop :=
  forall w,
    fst (m w) <> Hang /\
    exists reqs tms,
      fetches (events (snd (m w))) = fetches (events w) ++ reqs /\
      timers (snd (m w)) = timers w ++ tms /\
      List.length reqs = List.length tms /\
      existsb timer_active tms = false.

(** A computation that sends nothing and takes no reply of the network. *)
Definition no_request {A : Type} (m : M A) : Prop :=
  forall w,
    fetches (events (snd (m w))) = fetches (events w) /\
    network (snd (m w)) = network w.

(** A computation that sends at most one request, and takes the reply
    to it and no other. *)
Definition single_shot {A : Type} (m : M A) : Prop :=
  forall w,
    (fetches (events (snd (m w))) = fetches (events w) /\
     network (snd (m w)) = network w) \/
    (exists req,
       fetches (events (snd (m w))) = fetches (events w) ++ [req] /\
       network (snd (m w)) = tl (network w)).

(** [parsed[k]] of a parsed body. *)
Definition field_of (parsed : value) (k : string) : value :=
  match parsed with
  | VObj fields => obj_get k fields
  | _ => VUndefined
  end.

(** api.js's imports, for the runs on concrete inputs. The serialiser is
    a stand-in: the statements name the value that is serialised, through
    [make_init], never the text of a request body. *)
Definition demo_to_string (v : value) : string :=
  match v with
  | VStr s => s
  | VNum 1 => "1"
  | VNum 2 => "2"
  | VUndefined => "undefined"
  | VNull => "null"
  | _ => "x"
  end.

Definition demo_platform : Platform := {|
  API_URI := "/api";
  VIDEOS_API := "/api/videos";
  ARCHIVES_API := "/api/archive";
  OTP_API := "/api/otp";
  DEFAULT_LIMIT := VNum 20;
  emptyToNull := fun v => v;
  parseInt := fun v => match v with VNum n => VNum n | _ => VNaN end;
  JSON_stringify := fun _ => "{}";
  to_string := demo_to_string;
  encodeURIComponent := demo_to_string;
  join := fun items sep => String.concat sep (map demo_to_string items)
|}.

(** A world in which nothing has happened yet and the network is going
    to give the replies [nw]. *)
Definition fresh_world (nw : list net_reply) : World := mkWorld nw false [] [] [].

(* ================================================================== *)
(** ** Lemmas on the heap and on the timeout wrapper *)
(* ================================================================== *)

Lemma nth_error_at_length {A : Type} (l : list A) (x : A) (l' : list A) :
  nth_error (l ++ x :: l') (List.length l) = Some x.
Proof.
  induction l as [| y l IH]; simpl; [reflexivity | exact IH].
Qed.

Lemma update_nth_at_length {A : Type} (f : A -> A) (l : list A) (x : A) (l' : list A) :
  update_nth (List.length l) f (l ++ x :: l') = l ++ f x :: l'.
Proof.
  induction l as [| y l IH]; simpl; [reflexivity | now rewrite IH].
Qed.

(** A promise settles once: whatever is delivered afterwards, its state
    stays what it was. *)
Lemma tp_step_settled (st : tp_state) (ev : tp_event) (s : settled) :
  tp_outer st = Settled s -> tp_outer (tp_step st ev) = Settled s.
Proof.
  destruct st as [tm o]; simpl. intros H; subst o.
  destruct ev as [| [res | err]]; destruct tm; reflexivity.
Qed.

Lemma tp_run_settled (evs : list tp_event) (st : tp_state) (s : settled) :
  tp_outer st = Settled s -> tp_outer (tp_run evs st) = Settled s.
Proof.
  revert st. induction evs as [| ev evs IH]; intros st H; simpl.
  - exact H.
  - apply IH. apply tp_step_settled. exact H.
Qed.

Lemma schedule_fetch_first (tf : bool) (ms t : N) (s : settled) :
  fetch_first tf ms t = true ->
  schedule tf ms (SettlesAt t s) = [InnerSettled s; TimerDue].
Proof.
  unfold fetch_first, schedule. intros H.
  destruct (t <? ms)%N; [reflexivity |].
  destruct (ms <? t)%N; [discriminate |].
  destruct tf; [discriminate | reflexivity].
Qed.

Lemma schedule_timer_first (tf : bool) (ms t : N) (s : settled) :
  fetch_first tf ms t = false ->
  schedule tf ms (SettlesAt t s) = [TimerDue; InnerSettled s].
Proof.
  unfold fetch_first, schedule. intros H.
  destruct (t <? ms)%N; [discriminate |].
  destruct (ms <? t)%N; [reflexivity |].
  destruct tf; [reflexivity | discriminate].
Qed.

(** The wrapper, by who comes first. *)
Lemma timeoutPromise_fetch_first (ms t : N) (s : settled) (w : World) :
  fetch_first (timer_first_on_tie w) ms t = true ->
  timeoutPromise ms (SettlesAt t s) w =
    (match s with Fulfilled res => Ret res | Rejected err => Throw err end,
     record_timer Cleared w).
Proof.
  intros H. unfold timeoutPromise.
  rewrite (schedule_fetch_first _ _ _ _ H).
  destruct s; reflexivity.
Qed.

Lemma timeoutPromise_timer_first (ms t : N) (s : settled) (w : World) :
  fetch_first (timer_first_on_tie w) ms t = false ->
  timeoutPromise ms (SettlesAt t s) w = (Throw PromiseTimeout, record_timer Fired w).
Proof.
  intros H. unfold timeoutPromise.
  rewrite (schedule_timer_first _ _ _ _ H).
  destruct s; reflexivity.
Qed.

Lemma timeoutPromise_never (ms : N) (w : World) :
  timeoutPromise ms NeverSettles w = (Throw PromiseTimeout, record_timer Fired w).
Proof. reflexivity. Qed.

Local Arguments timeoutPromise : simpl never.

(** Reading a property of a parsed body that is there. *)
Lemma get_code (parsed : value) (w : World) :
  parsed <> VUndefined -> parsed <> VNull ->
  get parsed "code" w = (Ret (code_of parsed), w).
Proof.
  intros Hu Hn. destruct parsed; simpl; try reflexivity; try congruence.
  destruct (nth_error (heap w) ref); reflexivity.
Qed.

Ltac heap_simpl :=
  repeat (rewrite ?nth_error_at_length, ?update_nth_at_length; simpl).

Ltac decide_status :=
  repeat match goal with
         | |- context [Z.eqb ?a ?b] => destruct (Z.eqb_spec a b); try lia; simpl
         | |- context [Z.leb ?a ?b] => destruct (Z.leb_spec a b); try lia; simpl
         | |- context [Z.ltb ?a ?b] => destruct (Z.ltb_spec a b); try lia; simpl
         end.

Section ApiCallFacts.

Context {platform : Platform}.

(** *** The five ways a call of the executor ends *)

(** A response that comes in first, with a 2xx status. *)
Lemma apiCall_returns_2xx url meth body ms t st b rest tf hp tm evs :
  fetch_first tf (default_ms ms) t = true ->
  200 <= st < 300 ->
  apiCall url meth body ms (mkWorld (Responds t st b :: rest) tf hp tm evs) =
    (Ret (VResponse (List.length hp)),
     mkWorld rest tf
       (hp ++ [mkResponse st b false])
       (tm ++ [Cleared])
       (evs ++ [EvFetch url (make_init meth body)])).
Proof.
  intros Hrace Hst.
  unfold apiCall, bind, try_catch, fetch; simpl.
  rewrite timeoutPromise_fetch_first by exact Hrace; simpl.
  heap_simpl. decide_status. reflexivity.
Qed.

(** A response that comes in first, with another status and a body that
    parses to something with properties. *)
Lemma apiCall_returns_error url meth body ms t st parsed rest tf hp tm evs :
  fetch_first tf (default_ms ms) t = true ->
  non_2xx st ->
  parsed <> VUndefined -> parsed <> VNull ->
  apiCall url meth body ms (mkWorld (Responds t st (Some parsed) :: rest) tf hp tm evs) =
    (Ret (VResponse (List.length hp)),
     mkWorld rest tf
       (hp ++ [mkResponse st (Some parsed) false; mkResponse st (Some parsed) true])
       (tm ++ [Cleared])
       (evs ++ EvFetch url (make_init meth body) :: wrol_events st parsed)).
Proof.
  intros Hrace Hst Hu Hn. unfold non_2xx in Hst.
  unfold apiCall, bind, try_catch, fetch; simpl.
  rewrite timeoutPromise_fetch_first by exact Hrace; simpl.
  heap_simpl.
  assert (Hcond : (200 <=? st) && (st <? 300) = false).
  { destruct (Z.leb_spec 200 st); destruct (Z.ltb_spec st 300); simpl; try reflexivity; lia. }
  rewrite Hcond.
  unfold clone, json; simpl. heap_simpl.
  rewrite get_code by assumption; simpl.
  rewrite <- app_assoc; simpl. heap_simpl.
  unfold wrol_events.
  destruct ((st =? 403) && strict_eq (code_of parsed) (VNum 17)); simpl.
  - unfold log; simpl. rewrite <- app_assoc. reflexivity.
  - reflexivity.
Qed.

(** A response that comes in first, with another status and a body that
    is not there or is not JSON: [copy.json()] rejects, and the executor
    throws what it caught. *)
Lemma apiCall_throws_unreadable url meth body ms t st rest tf hp tm evs :
  fetch_first tf (default_ms ms) t = true ->
  non_2xx st ->
  apiCall url meth body ms (mkWorld (Responds t st None :: rest) tf hp tm evs) =
    (Throw JsonSyntaxError,
     mkWorld rest tf
       (hp ++ [mkResponse st None false; mkResponse st None true])
       (tm ++ [Cleared])
       (evs ++ [EvFetch url (make_init meth body);
                EvConsole LError [CErr JsonSyntaxError]])).
Proof.
  intros Hrace Hst. unfold non_2xx in Hst.
  unfold apiCall, bind, try_catch, fetch; simpl.
  rewrite timeoutPromise_fetch_first by exact Hrace; simpl.
  heap_simpl.
  assert (Hcond : (200 <=? st) && (st <? 300) = false).
  { destruct (Z.leb_spec 200 st); destruct (Z.ltb_spec st 300); simpl; try reflexivity; lia. }
  rewrite Hcond.
  unfold clone, json; simpl. heap_simpl.
  unfold throw, log, set_heap; simpl.
  rewrite <- !app_assoc. reflexivity.
Qed.

(** The same with the body [null]: reading [code] of it is a TypeError. *)
Lemma apiCall_throws_null url meth body ms t st rest tf hp tm evs :
  fetch_first tf (default_ms ms) t = true ->
  non_2xx st ->
  apiCall url meth body ms (mkWorld (Responds t st (Some VNull) :: rest) tf hp tm evs) =
    (Throw (TypeError "property of null"),
     mkWorld rest tf
       (hp ++ [mkResponse st (Some VNull) false; mkResponse st (Some VNull) true])
       (tm ++ [Cleared])
       (evs ++ [EvFetch url (make_init meth body);
                EvConsole LError [CErr (TypeError "property of null")]])).
Proof.
  intros Hrace Hst. unfold non_2xx in Hst.
  unfold apiCall, bind, try_catch, fetch; simpl.
  rewrite timeoutPromise_fetch_first by exact Hrace; simpl.
  heap_simpl.
  assert (Hcond : (200 <=? st) && (st <? 300) = false).
  { destruct (Z.leb_spec 200 st); destruct (Z.ltb_spec st 300); simpl; try reflexivity; lia. }
  rewrite Hcond.
  unfold clone, json; simpl. heap_simpl.
  unfold throw, log, set_heap; simpl.
  rewrite <- !app_assoc. reflexivity.
Qed.

(** No body parses to [undefined]; one that did would end the same way. *)
Lemma apiCall_throws_undefined url meth body ms t st rest tf hp tm evs :
  fetch_first tf (default_ms ms) t = true ->
  non_2xx st ->
  apiCall url meth body ms
    (mkWorld (Responds t st (Some VUndefined) :: rest) tf hp tm evs) =
    (Throw (TypeError "property of undefined"),
     mkWorld rest tf
       (hp ++ [mkResponse st (Some VUndefined) false;
               mkResponse st (Some VUndefined) true])
       (tm ++ [Cleared])
       (evs ++ [EvFetch url (make_init meth body);
                EvConsole LError [CErr (TypeError "property of undefined")]])).
Proof.
  intros Hrace Hst. unfold non_2xx in Hst.
  unfold apiCall, bind, try_catch, fetch; simpl.
  rewrite timeoutPromise_fetch_first by exact Hrace; simpl.
  heap_simpl.
  assert (Hcond : (200 <=? st) && (st <? 300) = false).
  { destruct (Z.leb_spec 200 st); destruct (Z.ltb_spec st 300); simpl; try reflexivity; lia. }
  rewrite Hcond.
  unfold clone, json; simpl. heap_simpl.
  unfold throw, log, set_heap; simpl.
  rewrite <- !app_assoc. reflexivity.
Qed.

(** A fetch that rejects first. *)
Lemma apiCall_throws_rejected url meth body ms t reason rest tf hp tm evs :
  fetch_first tf (default_ms ms) t = true ->
  apiCall url meth body ms (mkWorld (Fails t reason :: rest) tf hp tm evs) =
    (Throw (FetchRejected reason),
     mkWorld rest tf hp (tm ++ [Cleared])
       (evs ++ [EvFetch url (make_init meth body);
                EvConsole LError [CErr (FetchRejected reason)]])).
Proof.
  intros Hrace.
  unfold apiCall, bind, try_catch, fetch; simpl.
  rewrite timeoutPromise_fetch_first by exact Hrace; simpl.
  unfold throw, log; simpl. rewrite <- !app_assoc. reflexivity.
Qed.

(** The timer first. *)
Lemma apiCall_throws_timeout url meth body ms nw tf hp tm evs :
  times_out (mkWorld nw tf hp tm evs) (default_ms ms) = true ->
  apiCall url meth body ms (mkWorld nw tf hp tm evs) =
    (Throw PromiseTimeout,
     mkWorld (tl nw) tf (hp ++ orphan nw) (tm ++ [Fired])
       (evs ++ [EvFetch url (make_init meth body);
                EvConsole LError [CErr PromiseTimeout]])).
Proof.
  unfold times_out; simpl. intros Hrace.
  unfold apiCall, bind, try_catch, fetch; simpl.
  destruct nw as [| [t st b | t reason |] rest]; simpl.
  - rewrite ?timeoutPromise_never.
    unfold throw, log; simpl. rewrite <- !app_assoc, app_nil_r. reflexivity.
  - apply negb_true_iff in Hrace.
    rewrite timeoutPromise_timer_first by exact Hrace.
    unfold throw, log; simpl. rewrite <- !app_assoc. reflexivity.
  - apply negb_true_iff in Hrace.
    rewrite timeoutPromise_timer_first by exact Hrace.
    unfold throw, log; simpl. rewrite <- !app_assoc, app_nil_r. reflexivity.
  - rewrite ?timeoutPromise_never.
    unfold throw, log; simpl. rewrite <- !app_assoc, app_nil_r. reflexivity.
Qed.

End ApiCallFacts.

(* ================================================================== *)
(** ** Quiet computations *)
(* ================================================================== *)

Lemma fetches_app (l1 l2 : list event) :
  fetches (l1 ++ l2) = fetches l1 ++ fetches l2.
Proof.
  induction l1 as [| ev l1 IH]; simpl; [reflexivity |].
  destruct ev; simpl; rewrite IH; reflexivity.
Qed.

Lemma toasts_app (l1 l2 : list event) :
  toasts (l1 ++ l2) = toasts l1 ++ toasts l2.
Proof.
  induction l1 as [| ev l1 IH]; simpl; [reflexivity |].
  destruct ev; simpl; rewrite IH; reflexivity.
Qed.

Ltac quiet_prim :=
  intros w; simpl; rewrite ?fetches_app, ?app_nil_r; simpl;
  repeat split; try reflexivity; try discriminate;
  try (intros e He; inversion He; subst; reflexivity).

Lemma quiet_ret {A : Type} (a : A) : quiet (ret a).
Proof. quiet_prim. Qed.

Lemma quiet_throw {A : Type} (e : error) :
  is_transport e = false -> quiet (@throw A e).
Proof.
  intros H w; simpl. repeat split; try discriminate.
  intros e' He; inversion He; subst; exact H.
Qed.

Lemma quiet_toast (t : Toast) : quiet (toast t).
Proof. quiet_prim. Qed.

Lemma quiet_console (level : console_level) (args : list console_arg) :
  quiet (console level args).
Proof. quiet_prim. Qed.

Lemma quiet_get (v : value) (k : string) : quiet (get v k).
Proof.
  intros w. unfold get.
  destruct v; try destruct (nth_error (heap w) ref); simpl;
    repeat split; try reflexivity; try discriminate;
    intros e He; inversion He; subst; reflexivity.
Qed.

Lemma quiet_clone (v : value) : quiet (clone v).
Proof.
  intros w. unfold clone.
  destruct v; try destruct (nth_error (heap w) ref) as [r |];
    try destruct (bodyUsed r); simpl;
    repeat split; try reflexivity; try discriminate;
    intros e He; inversion He; subst; reflexivity.
Qed.

Lemma quiet_json (v : value) : quiet (json v).
Proof.
  intros w. unfold json.
  destruct v; try destruct (nth_error (heap w) ref) as [r |];
    try destruct (bodyUsed r); try destruct (body r); simpl;
    repeat split; try reflexivity; try discriminate;
    intros e He; inversion He; subst; reflexivity.
Qed.

Lemma quiet_bind {A B : Type} (m : M A) (k : A -> M B) :
  quiet m -> (forall a, quiet (k a)) -> quiet (bind m k).
Proof.
  intros Hm Hk w. unfold bind.
  destruct (Hm w) as (Hn & Htf & Ht & Hf & Hh & He).
  destruct (m w) as [[a | e |] w1]; simpl in *.
  - destruct (Hk a w1) as (Hn' & Htf' & Ht' & Hf' & Hh' & He').
    repeat split; try congruence. exact He'.
  - repeat split; try congruence.
    intros e' Heq. inversion Heq; subst. apply He. reflexivity.
  - congruence.
Qed.

Lemma quiet_try_catch {A : Type} (m : M A) (h : error -> M A) :
  quiet m -> (forall e, quiet (h e)) -> quiet (try_catch m h).
Proof.
  intros Hm Hh w. unfold try_catch.
  destruct (Hm w) as (Hn & Htf & Ht & Hf & Hhang & He).
  destruct (m w) as [[a | e |] w1]; simpl in *.
  - repeat split; try congruence.
  - destruct (Hh e w1) as (Hn' & Htf' & Ht' & Hf' & Hh' & He').
    repeat split; try congruence. exact He'.
  - congruence.
Qed.

Lemma quiet_when (c : bool) (m : M unit) : quiet m -> quiet (when c m).
Proof. intros H. destruct c; simpl; [exact H | apply quiet_ret]. Qed.

Lemma quiet_if {A : Type} (c : bool) (m1 m2 : M A) :
  quiet m1 -> quiet m2 -> quiet (if c then m1 else m2).
Proof. intros H1 H2. destruct c; assumption. Qed.

Create HintDb quiet.
#[export] Hint Resolve quiet_ret quiet_toast quiet_console quiet_get quiet_clone
  quiet_json quiet_when quiet_if : quiet.

Ltac quiet_tac :=
  repeat first
    [ apply quiet_bind; [| intros ? ]
    | apply quiet_try_catch; [| intros ? ]
    | apply quiet_if
    | apply quiet_when
    | apply quiet_throw; reflexivity
    | solve [auto with quiet] ].

(** A handler that logs and throws again what it caught keeps a quiet
    computation quiet. *)
Lemma quiet_rethrow {A : Type} (m : M A) :
  quiet m ->
  quiet (try_catch m (fun e => console LError [CErr e] ;; throw e)%js).
Proof.
  intros Hm w. unfold try_catch.
  destruct (Hm w) as (Hn & Htf & Ht & Hf & Hhang & He).
  destruct (m w) as [[a | e |] w1]; simpl in *.
  - repeat split; try congruence.
  - rewrite fetches_app, app_nil_r.
    repeat split; try congruence.
    intros e' Heq. inversion Heq; subst. apply He. reflexivity.
  - congruence.
Qed.

(* ================================================================== *)
(** ** The executor in any world *)
(* ================================================================== *)

Section Executor.

Context {platform : Platform}.

(** Every call of [apiCall] sends exactly one request and sets exactly
    one timer, which is not active any more in the world the call
    leaves; on the replies of [net_reply] the call does not wait for
    ever; and it ends with the timeout error exactly when the timer
    comes first. *)
Lemma apiCall_guarded url meth body ms w :
  let r := apiCall url meth body ms w in
  network (snd r) = tl (network w) /\
  timer_first_on_tie (snd r) = timer_first_on_tie w /\
  timers (snd r) =
    timers w ++ [if times_out w (default_ms ms) then Fired else Cleared] /\
  fetches (events (snd r)) = fetches (events w) ++ [(url, make_init meth body)] /\
  fst r <> Hang /\
  (fst r = Throw PromiseTimeout <-> times_out w (default_ms ms) = true).
Proof.
  destruct (times_out w (default_ms ms)) eqn:Hto.
  - (* the timer first *)
    destruct w as [nw tf hp tm evs].
    rewrite apiCall_throws_timeout by exact Hto. simpl.
    rewrite fetches_app; simpl.
    repeat split; try reflexivity; try discriminate.
  - (* the fetch first *)
    destruct w as [nw tf hp tm evs]. unfold times_out in Hto; simpl in Hto.
    destruct nw as [| [t st b | t reason |] rest]; try discriminate;
      apply negb_false_iff in Hto.
    + (* a response *)
      remember (apiCall url meth body ms _) as r eqn:Hr.
      unfold apiCall in Hr. unfold bind at 1 in Hr.
      cbn [fetch network timer_first_on_tie heap timers events log alloc set_network]
        in Hr.
      unfold try_catch at 1 in Hr. unfold bind at 1 in Hr.
      rewrite timeoutPromise_fetch_first in Hr by exact Hto.
      match type of Hr with
      | context [let (_, _) := ?m ?W in _] =>
          assert (Hq : quiet (try_catch m
                                (fun e => console LError [CErr e] ;; throw e)%js))
            by (apply quiet_rethrow; quiet_tac);
          specialize (Hq W); unfold try_catch in Hq;
          destruct (m W) as [[a | e |] w1]
      end; subst r; simpl in *;
        destruct Hq as (Hn & Htf & Ht & Hf & Hhang & He);
        rewrite ?fetches_app in *; simpl in *; rewrite ?app_nil_r in *.
      * repeat split; try congruence.
      * repeat split; try congruence.
        intros Heq. inversion Heq; subst.
        specialize (He _ eq_refl). discriminate.
      * congruence.
    + (* a rejection *)
      rewrite apiCall_throws_rejected by exact Hto. simpl.
      rewrite fetches_app; simpl.
      repeat split; try reflexivity; try discriminate.
Qed.

End Executor.

(* ================================================================== *)
(** ** The timeout race *)
(* ================================================================== *)

Lemma before_fetch_first (tf : bool) (T t : N) :
  (t < T)%N -> fetch_first tf T t = true.
Proof.
  intros H. unfold fetch_first.
  apply N.ltb_lt in H. rewrite H. reflexivity.
Qed.

Lemma after_timer_first (tf : bool) (T t : N) :
  (T < t)%N -> fetch_first tf T t = false.
Proof.
  intros H. unfold fetch_first.
  assert (H1 : (t <? T)%N = false) by (apply N.ltb_ge; lia).
  assert (H2 : (T <? t)%N = true) by (apply N.ltb_lt; lia).
  rewrite H1, H2. reflexivity.
Qed.

Lemma not_settled_times_out (w : World) (T : N) (reply : net_reply) (rest : list net_reply) :
  network w = reply :: rest ->
  not_settled_within T reply -> times_out w T = true.
Proof.
  intros Hnet H. unfold times_out. rewrite Hnet.
  destruct reply; simpl in *; try rewrite after_timer_first by exact H; reflexivity.
Qed.

Lemma settles_not_times_out (w : World) (T : N) (reply : net_reply) (rest : list net_reply) :
  network w = reply :: rest ->
  settles_before T reply -> times_out w T = false.
Proof.
  intros Hnet H. unfold times_out. rewrite Hnet.
  destruct reply; simpl in *;
    try rewrite before_fetch_first by exact H; try reflexivity; contradiction.
Qed.

(** Once the wrapped promise has been delivered first, the timer is
    cleared and stays so, whatever is delivered later; a timer that has
    fired stays fired. *)
Lemma tp_run_cleared (evs : list tp_event) (o : promise_state) :
  tp_timer (tp_run evs (mkTp Cleared o)) = Cleared.
Proof.
  revert o. induction evs as [| ev evs IH]; intros o; simpl; [reflexivity |].
  destruct ev as [| [res | err]]; simpl; apply IH.
Qed.

Lemma tp_run_fired (evs : list tp_event) (o : promise_state) :
  tp_timer (tp_run evs (mkTp Fired o)) = Fired.
Proof.
  revert o. induction evs as [| ev evs IH]; intros o; simpl; [reflexivity |].
  destruct ev as [| [res | err]]; simpl; apply IH.
Qed.

Section TimeoutRace.

Context {platform : Platform}.

(** C1, as the code has it. Timeout race. A call of [apiCall] with
    timeout [T] ([60000] when none is given) whose fetch has not settled
    when [T] milliseconds have gone by rejects with the timeout error;
    its timer has fired then, it is not cleared, and the clearTimeout of
    a fetch that settles later finds it fired and leaves it so. A call
    whose fetch settles, resolved or rejected, before [T] has its timer
    cleared and never gets the timeout error; and the promise of the
    wrapper keeps what the fetch settled with whatever is delivered
    afterwards, the due time of the timer included. *)
Theorem apiCall_timeout_race url meth body ms w reply rest :
  network w = reply :: rest ->
  let T := match ms with Some given => given | None => 60000%N end in
  (not_settled_within T reply ->
     fst (apiCall url meth body ms w) = Throw PromiseTimeout /\
     timers (snd (apiCall url meth body ms w)) = timers w ++ [Fired] /\
     (forall later,
        tp_outer (tp_run (TimerDue :: later) tp_init)
          = Settled (Rejected PromiseTimeout) /\
        tp_timer (tp_run (TimerDue :: later) tp_init) = Fired)) /\
  (settles_before T reply ->
     fst (apiCall url meth body ms w) <> Throw PromiseTimeout /\
     timers (snd (apiCall url meth body ms w)) = timers w ++ [Cleared] /\
     (forall s later,
        tp_outer (tp_run (InnerSettled s :: later) tp_init) = Settled s /\
        tp_timer (tp_run (InnerSettled s :: later) tp_init) = Cleared)).
Proof.
  intros Hnet T.
  assert (HT : default_ms ms = T) by (destruct ms; reflexivity).
  pose proof (apiCall_guarded url meth body ms w) as G. simpl in G.
  rewrite HT in G.
  destruct G as (_ & _ & Htm & _ & _ & Hto).
  split.
  - intros Hlate.
    pose proof (not_settled_times_out _ _ _ _ Hnet Hlate) as E.
    rewrite E in Htm.
    repeat split; try assumption.
    + apply Hto. exact E.
    + simpl. apply tp_run_settled. reflexivity.
    + simpl. apply tp_run_fired.
  - intros Hearly.
    pose proof (settles_not_times_out _ _ _ _ Hnet Hearly) as E.
    rewrite E in Htm.
    repeat split; try assumption.
    + intros Habs. apply Hto in Habs. congruence.
    + simpl. destruct s; simpl; apply tp_run_settled; reflexivity.
    + simpl. destruct s; simpl; apply tp_run_cleared.
Qed.

End TimeoutRace.

(** A run of C1: a call with a timeout of 5 ms answered after 10 ms, and
    a call with the default timeout answered after 10 ms. *)
Lemma apiCall_timeout_race_witness :
  (fst (apiCall (platform := demo_platform) "/api/status" "GET" VUndefined (Some 5%N)
          (fresh_world [Responds 10 200 None])) = Throw PromiseTimeout /\
   timers (snd (apiCall (platform := demo_platform) "/api/status" "GET" VUndefined
                  (Some 5%N) (fresh_world [Responds 10 200 None]))) = [Fired]) /\
  (fst (apiCall (platform := demo_platform) "/api/status" "GET" VUndefined None
          (fresh_world [Responds 10 200 None])) <> Throw PromiseTimeout /\
   timers (snd (apiCall (platform := demo_platform) "/api/status" "GET" VUndefined
                  None (fresh_world [Responds 10 200 None]))) = [Cleared]).
Proof.
  split.
  - pose proof (proj1
      (apiCall_timeout_race (platform := demo_platform)
         "/api/status" "GET" VUndefined (Some 5%N)
         (fresh_world [Responds 10 200 None]) (Responds 10 200 None) [] eq_refl)
      eq_refl) as H.
    exact (conj (proj1 H) (proj1 (proj2 H))).
  - pose proof (proj2
      (apiCall_timeout_race (platform := demo_platform)
         "/api/status" "GET" VUndefined None
         (fresh_world [Responds 10 200 None]) (Responds 10 200 None) [] eq_refl)
      eq_refl) as H.
    exact (conj (proj1 H) (proj1 (proj2 H))).
Defined.

(** The claim C1 on a network that never answers, and on one that
    answers after the timeout: the call rejects with the timeout error
    and its timer has fired; it has not been cleared, and the
    clearTimeout of the late answer finds it fired and leaves it so. *)
Lemma apiCall_timeout_timer_not_cleared :
  fst (apiCall (platform := demo_platform) "/api/status" "GET" VUndefined None
         (fresh_world [Silent])) = Throw PromiseTimeout /\
  timers (snd (apiCall (platform := demo_platform) "/api/status" "GET" VUndefined None
                 (fresh_world [Silent]))) = [Fired] /\
  timers (snd (apiCall (platform := demo_platform) "/api/status" "GET" VUndefined None
                 (fresh_world [Responds 70000 200 None]))) = [Fired] /\
  tp_timer (tp_run [TimerDue; InnerSettled (Fulfilled (VResponse 0))] tp_init) = Fired /\
  Fired <> Cleared.
Proof.
  split; [vm_compute; reflexivity |].
  split; [vm_compute; reflexivity |].
  split; [vm_compute; reflexivity |].
  split; [reflexivity | discriminate].
Qed.

(* ================================================================== *)
(** ** What the executor hands back *)
(* ================================================================== *)

Section ExecutorResults.

Context {platform : Platform}.

(** C3. Success passthrough. On a response that comes in before the
    timeout with a status in [200, 300), [apiCall] returns that very
    Response, untouched: its body has not been read and no copy of it
    has been made, nothing is notified, nothing is logged but the
    request, and nothing is thrown. *)
Theorem apiCall_success_passthrough url meth body ms w t st b rest :
  network w = Responds t st b :: rest ->
  (t < default_ms ms)%N ->
  200 <= st < 300 ->
  apiCall url meth body ms w =
    (Ret (VResponse (List.length (heap w))),
     mkWorld rest (timer_first_on_tie w)
       (heap w ++ [mkResponse st b false])
       (timers w ++ [Cleared])
       (events w ++ [EvFetch url (make_init meth body)])).
Proof.
  intros Hnet Ht Hst.
  destruct w as [nw tf hp tm evs]; simpl in *; subst nw.
  apply apiCall_returns_2xx; [apply before_fetch_first; exact Ht | exact Hst].
Qed.

(** C2. Write-protected mode. On a response that comes in before the
    timeout with status 403 and a JSON body whose [code] is 17, [apiCall]
    shows exactly one notification, the one of the WROL mode, whatever
    the url, the method and the body of the call, that is whichever
    operation made it; and it returns the Response it received, whose
    own body is still unread. *)
Theorem apiCall_wrol_warning url meth body ms w t parsed rest :
  network w = Responds t 403 (Some parsed) :: rest ->
  (t < default_ms ms)%N ->
  code_of parsed = VNum 17 ->
  fst (apiCall url meth body ms w) = Ret (VResponse (List.length (heap w))) /\
  nth_error (heap (snd (apiCall url meth body ms w))) (List.length (heap w))
    = Some (mkResponse 403 (Some parsed) false) /\
  events (snd (apiCall url meth body ms w))
    = events w ++ [EvFetch url (make_init meth body); EvToast wrol_toast] /\
  toasts (events (snd (apiCall url meth body ms w)))
    = toasts (events w) ++ [wrol_toast].
Proof.
  intros Hnet Ht Hcode.
  destruct w as [nw tf hp tm evs]; simpl in *; subst nw.
  assert (Hu : parsed <> VUndefined) by (intros E; subst; discriminate).
  assert (Hn : parsed <> VNull) by (intros E; subst; discriminate).
  rewrite apiCall_returns_error
    by first [assumption | apply before_fetch_first; exact Ht | unfold non_2xx; lia].
  unfold wrol_events. rewrite Hcode. simpl.
  repeat split.
  - apply nth_error_at_length.
  - rewrite toasts_app. reflexivity.
Qed.

(** C4, as the code has it. On a response that comes in before the
    timeout with a status outside [200, 300), [apiCall] reads [code] of
    the parsed body of a copy with no guard of its own. When the body
    parses to a value other than [null], it returns the Response it
    received, whose own body is still unread. When the body is not there
    or is not JSON, [copy.json()] rejects, and [apiCall] logs that error
    and throws it; and so with the TypeError of reading [code] of
    [null]. *)
Theorem apiCall_error_body url meth body ms w t st b rest :
  network w = Responds t st b :: rest ->
  (t < default_ms ms)%N ->
  non_2xx st ->
  (forall parsed,
     b = Some parsed -> parsed <> VUndefined -> parsed <> VNull ->
     fst (apiCall url meth body ms w) = Ret (VResponse (List.length (heap w))) /\
     nth_error (heap (snd (apiCall url meth body ms w))) (List.length (heap w))
       = Some (mkResponse st b false)) /\
  (b = None ->
     fst (apiCall url meth body ms w) = Throw JsonSyntaxError /\
     events (snd (apiCall url meth body ms w))
       = events w ++ [EvFetch url (make_init meth body);
                      EvConsole LError [CErr JsonSyntaxError]]) /\
  (b = Some VNull ->
     fst (apiCall url meth body ms w) = Throw (TypeError "property of null") /\
     events (snd (apiCall url meth body ms w))
       = events w ++ [EvFetch url (make_init meth body);
                      EvConsole LError [CErr (TypeError "property of null")]]).
Proof.
  intros Hnet Ht Hst.
  destruct w as [nw tf hp tm evs]; simpl in *; subst nw.
  pose proof (before_fetch_first tf _ _ Ht) as Hrace.
  repeat split.
  - subst b. rewrite apiCall_returns_error by assumption. reflexivity.
  - subst b. rewrite apiCall_returns_error by assumption. simpl.
    apply nth_error_at_length.
  - subst b. rewrite apiCall_throws_unreadable by assumption. reflexivity.
  - subst b. rewrite apiCall_throws_unreadable by assumption. reflexivity.
  - subst b. rewrite apiCall_throws_null by assumption. reflexivity.
  - subst b. rewrite apiCall_throws_null by assumption. reflexivity.
Qed.

(** C9. [postDownload] without a downloader (none passed, or a falsy
    one) shows one error notification and throws; it builds no request
    body and does not reach the executor: no request is sent, no timer
    is set, and the network is where it was. *)
Theorem postDownload_requires_downloader
  urls downloader frequency sub_downloader excludedURLs destination tagNames w :
  truthy downloader = false ->
  postDownload urls downloader frequency sub_downloader excludedURLs destination
    tagNames w
  = (Throw DownloaderRequired,
     log (EvToast (error_toast "Failed to submit download"
                     "downloader is required, but was not provided")) w)
  /\ fetches (events (snd (postDownload urls downloader frequency sub_downloader
                             excludedURLs destination tagNames w)))
     = fetches (events w)
  /\ toasts (events (snd (postDownload urls downloader frequency sub_downloader
                            excludedURLs destination tagNames w)))
     = toasts (events w)
        ++ [error_toast "Failed to submit download"
              "downloader is required, but was not provided"].
Proof.
  intros Hd. unfold postDownload. rewrite Hd. simpl.
  rewrite fetches_app, toasts_app, app_nil_r. repeat split.
Qed.

End ExecutorResults.

Lemma apiCall_success_passthrough_witness :
  apiCall (platform := demo_platform) "/api/status" "GET" VUndefined None
    (fresh_world [Responds 10 200 (Some (VObj []))])
  = (Ret (VResponse 0),
     mkWorld [] false [mkResponse 200 (Some (VObj [])) false] [Cleared]
       [EvFetch "/api/status" (mkInit "GET" None)]).
Proof.
  apply (apiCall_success_passthrough (platform := demo_platform)
           "/api/status" "GET" VUndefined None
           (fresh_world [Responds 10 200 (Some (VObj []))]) 10 200 (Some (VObj [])) []).
  - reflexivity.
  - reflexivity.
  - simpl. lia.
Defined.

Lemma apiCall_wrol_warning_witness :
  toasts (events (snd (apiCall (platform := demo_platform) "/api/settings" "PATCH"
                         (VObj []) None
                         (fresh_world [Responds 10 403 (Some (VObj [("code", VNum 17)]))]))))
  = [wrol_toast].
Proof.
  apply (apiCall_wrol_warning (platform := demo_platform) "/api/settings" "PATCH"
           (VObj []) None
           (fresh_world [Responds 10 403 (Some (VObj [("code", VNum 17)]))])
           10 (VObj [("code", VNum 17)]) []).
  - reflexivity.
  - reflexivity.
  - reflexivity.
Defined.

Lemma apiCall_error_body_witness :
  fst (apiCall (platform := demo_platform) "/api/status" "GET" VUndefined None
         (fresh_world [Responds 10 500 None])) = Throw JsonSyntaxError.
Proof.
  apply (apiCall_error_body (platform := demo_platform) "/api/status" "GET"
           VUndefined None (fresh_world [Responds 10 500 None]) 10 500 None []).
  - reflexivity.
  - reflexivity.
  - right. lia.
  - reflexivity.
Defined.

(** The claim C4 at a 500 whose body is not JSON: the executor throws,
    and does not return the response. *)
Lemma apiCall_unreadable_body_throws :
  fst (apiCall (platform := demo_platform) "/api/status" "GET" VUndefined None
         (fresh_world [Responds 10 500 None])) = Throw JsonSyntaxError /\
  ~ (exists ref,
       fst (apiCall (platform := demo_platform) "/api/status" "GET" VUndefined None
              (fresh_world [Responds 10 500 None])) = Ret (VResponse ref)).
Proof.
  split.
  - reflexivity.
  - intros [ref H]. discriminate H.
Qed.

Lemma postDownload_requires_downloader_witness :
  fst (postDownload (platform := demo_platform)
         (VArr [VStr "https://example.com"]) VUndefined VUndefined VUndefined
         VUndefined VUndefined VUndefined (fresh_world []))
  = Throw DownloaderRequired.
Proof.
  apply (f_equal fst
           (proj1 (postDownload_requires_downloader (platform := demo_platform)
                     (VArr [VStr "https://example.com"]) VUndefined VUndefined VUndefined
                     VUndefined VUndefined VUndefined (fresh_world []) eq_refl))).
Defined.

(* ================================================================== *)
(** ** The operation functions on a response *)
(* ================================================================== *)

Local Opaque apiCall.

Ltac side :=
  first [ assumption | lia | congruence
        | apply before_fetch_first; assumption
        | unfold non_2xx; lia ].

Ltac exec :=
  unfold apiGet, apiPost, apiPut, apiPatch, apiDelete;
  repeat first
    [ progress simpl
    | progress unfold log, alloc, set_heap, set_network, record_timer
    | rewrite nth_error_at_length
    | rewrite update_nth_at_length
    | rewrite apiCall_returns_2xx by side
    | rewrite apiCall_returns_error by side
    | rewrite apiCall_throws_unreadable by side
    | rewrite apiCall_throws_null by side
    | rewrite apiCall_throws_undefined by side
    | rewrite apiCall_throws_rejected by side
    | rewrite apiCall_throws_timeout by side ].

Section Envelope.

Context {platform : Platform}.

(** C6. Envelope parsing. On a 200 that comes in before the timeout with
    a JSON body [{file_groups: ..., totals: {file_groups: N}}], each of
    the three searches returns the pair of the [file_groups] of the body
    and that [N], whatever it was called with. *)
Theorem search_envelope w t fields totals rest :
  network w = Responds t 200 (Some (VObj fields)) :: rest ->
  (t < 60000)%N ->
  obj_get "totals" fields = VObj totals ->
  let expected :=
    Ret (VArr [obj_get "file_groups" fields; obj_get "file_groups" totals]) in
  (forall offset limit channelId searchStr order_by tagNames headline,
     fst (searchVideos offset limit channelId searchStr order_by tagNames headline w)
       = expected) /\
  (forall offset limit domain searchStr order tagNames headline,
     fst (searchArchives offset limit domain searchStr order tagNames headline w)
       = expected) /\
  (forall offset limit searchStr mimetypes model tagNames headline,
     fst (filesSearch offset limit searchStr mimetypes model tagNames headline w)
       = expected).
Proof.
  intros Hnet Ht Htotals expected. subst expected.
  destruct w as [nw tf hp tm evs]; simpl in Hnet; subst nw.
  repeat split; intros.
  - unfold searchVideos, bind. exec. rewrite Htotals. reflexivity.
  - unfold searchArchives, bind. exec. rewrite Htotals. reflexivity.
  - unfold filesSearch, bind. exec. rewrite Htotals. reflexivity.
Qed.

End Envelope.

Lemma search_envelope_witness :
  fst (searchVideos (platform := demo_platform)
         (VNum 0) (VNum 20) VUndefined (VStr "cats") VUndefined VUndefined VUndefined
         (fresh_world
            [Responds 10 200
               (Some (VObj [("file_groups", VArr [VStr "a"; VStr "b"]);
                            ("totals", VObj [("file_groups", VNum 2)])]))]))
  = Ret (VArr [VArr [VStr "a"; VStr "b"]; VNum 2]).
Proof.
  exact (proj1
           (search_envelope (platform := demo_platform)
              (fresh_world
                 [Responds 10 200
                    (Some (VObj [("file_groups", VArr [VStr "a"; VStr "b"]);
                                 ("totals", VObj [("file_groups", VNum 2)])]))])
              10
              [("file_groups", VArr [VStr "a"; VStr "b"]);
               ("totals", VObj [("file_groups", VNum 2)])]
              [("file_groups", VNum 2)] [] eq_refl eq_refl eq_refl)
           (VNum 0) (VNum 20) VUndefined (VStr "cats") VUndefined VUndefined VUndefined).
Defined.

(* ================================================================== *)
(** ** Operations on a response that is not a success *)
(* ================================================================== *)

Ltac name_args args :=
  unfold call;
  generalize (arg 0 args) (arg 1 args) (arg 2 args) (arg 3 args)
             (arg 4 args) (arg 5 args) (arg 6 args);
  intros.

Section Failures.

Context {platform : Platform}.

(** C5, as the code has it. On a response with a status other than 200
    that the executor hands back (a 2xx, or an error whose body parses
    to something other than [null]), ten of the thirteen operations that
    return a list, or a list and its total, do not throw and return a
    value that is fixed for each of them, and is not always an empty
    list: [[[], 0]] for searchVideos and searchArchives, [[]] for
    getDirectories, [[null, null]] for filesSearch, and [undefined] for
    getChannels, getCategories, getBrands, getInventories, fetchDomains
    and getTags. The other three have no such default: searchDirectories
    returns [[]] on a 204 and [undefined] otherwise; getFiles and
    getItems do not look at the status, and return what they read in the
    body of an error (its [files], the body itself) and throw the error
    of [json()] on a 2xx with no body to read. *)
Theorem default_on_failure args w t st b rest :
  network w = Responds t st b :: rest ->
  (t < 60000)%N ->
  st <> 200 ->
  handed_back st b ->
  let returned op := fst (call op args w) in
  (returned SearchVideos = Ret (VArr [VArr []; VNum 0]) /\
   returned SearchArchives = Ret (VArr [VArr []; VNum 0]) /\
   returned GetDirectories = Ret (VArr []) /\
   returned FilesSearch = Ret (VArr [VNull; VNull]) /\
   returned GetChannels = Ret VUndefined /\
   returned GetCategories = Ret VUndefined /\
   returned GetBrands = Ret VUndefined /\
   returned GetInventories = Ret VUndefined /\
   returned FetchDomains = Ret VUndefined /\
   returned GetTags = Ret VUndefined) /\
  returned SearchDirectories = Ret (if st =? 204 then VArr [] else VUndefined) /\
  (forall parsed,
     b = Some parsed -> parsed <> VUndefined -> parsed <> VNull ->
     returned GetFiles = Ret (field_of parsed "files") /\
     returned GetItems = Ret parsed) /\
  (b = None ->
     returned GetFiles = Throw JsonSyntaxError /\
     returned GetItems = Throw JsonSyntaxError).
Proof.
  intros Hnet Ht Hst Hback returned. subst returned.
  destruct w as [nw tf hp tm evs]; simpl in Hnet; subst nw.
  name_args args.
  split; [| split; [| split]].
  - destruct Hback as [H2xx | (Herr & parsed & Hb & Hu & Hn)]; [| subst b];
      unfold getChannels, searchVideos, getDirectories, getCategories, getBrands,
        getInventories, searchArchives, fetchDomains, filesSearch, getTags, bind;
      repeat split; exec; decide_status; reflexivity.
  - destruct Hback as [H2xx | (Herr & parsed & Hb & Hu & Hn)]; [| subst b];
      unfold searchDirectories, bind; exec; decide_status; reflexivity.
  - intros parsed -> Hu Hn.
    destruct Hback as [H2xx | (Herr & parsed' & Hb & _ & _)];
      unfold getFiles, getItems, bind, console, json;
      exec;
      repeat match goal with
             | Hp : ?p <> VUndefined |- _ => is_var p; destruct p; try congruence
             end;
      exec;
      repeat match goal with
             | |- context [nth_error ?h ?r] => destruct (nth_error h r); simpl
             end;
      split; reflexivity.
  - intros ->.
    destruct Hback as [H2xx | (Herr & parsed' & Hb & _ & _)]; [| discriminate Hb].
    unfold getFiles, getItems, bind, console, json; exec; split; reflexivity.
Qed.

End Failures.

Lemma default_on_failure_witness :
  fst (call (platform := demo_platform) FilesSearch [VNum 0; VNum 20; VStr "cats"]
         (fresh_world [Responds 10 500 (Some (VObj [("code", VNum 1)]))]))
  = Ret (VArr [VNull; VNull]).
Proof.
  refine (proj1 (proj2 (proj2 (proj2 (proj1
            (default_on_failure (platform := demo_platform)
               [VNum 0; VNum 20; VStr "cats"]
               (fresh_world [Responds 10 500 (Some (VObj [("code", VNum 1)]))])
               10 500 (Some (VObj [("code", VNum 1)])) [] eq_refl eq_refl _ _)))))).
  - discriminate.
  - right. split.
    + right. discriminate.
    + exists (VObj [("code", VNum 1)]). repeat split; discriminate.
Defined.

(** The claim C5 at a 500 with a JSON body: [filesSearch] returns
    [[null, null]] and [getChannels] returns [undefined]; neither is
    [[]] or [[[], 0]]. *)
Lemma filesSearch_failure_nulls :
  fst (filesSearch (platform := demo_platform)
         (VNum 0) (VNum 20) (VStr "cats") VUndefined VUndefined VUndefined VUndefined
         (fresh_world [Responds 10 500 (Some (VObj [("code", VNum 1)]))]))
  = Ret (VArr [VNull; VNull]) /\
  Ret (VArr [VNull; VNull]) <> Ret (VArr [VArr []; VNum 0]) /\
  Ret (VArr [VNull; VNull]) <> Ret (VArr []) /\
  fst (getChannels (platform := demo_platform)
         (fresh_world [Responds 10 500 (Some (VObj [("code", VNum 1)]))]))
  = Ret VUndefined /\
  Ret VUndefined <> Ret (VArr []) /\
  Ret VUndefined <> Ret (VArr [VArr []; VNum 0]).
Proof.
  split; [vm_compute; reflexivity |].
  split; [discriminate |].
  split; [discriminate |].
  split; [vm_compute; reflexivity |].
  split; discriminate.
Qed.

(* ================================================================== *)
(** ** The hotspot and the throttle status *)
(* ================================================================== *)

Section StatusReaders.

Context {platform : Platform}.

(** C10, as the code has it. On a settings response that comes in before
    the timeout, [getHotspotStatus] and [getThrottleStatus] return a
    value only when its status is 200, and then the [hotspot_status],
    respectively the [throttle_status], of the settings object. On any
    other status that the executor hands back (a 2xx, or an error whose
    body parses to something other than [null]) [getSettings] returns
    [undefined] and both throw the TypeError of reading a property of
    [undefined]. When the body of an error is not there or is not JSON,
    it is the executor that throws: [getSettings] does not return, and
    what comes out of all three is the error of [json()]. *)
Theorem settings_status_readers w t st b rest :
  network w = Responds t st b :: rest ->
  (t < 60000)%N ->
  (forall v, fst (getHotspotStatus w) = Ret v -> st = 200) /\
  (forall v, fst (getThrottleStatus w) = Ret v -> st = 200) /\
  (forall fields,
     st = 200 -> b = Some (VObj fields) ->
     fst (getHotspotStatus w) = Ret (obj_get "hotspot_status" fields) /\
     fst (getThrottleStatus w) = Ret (obj_get "throttle_status" fields)) /\
  (st <> 200 -> handed_back st b ->
     fst (getSettings w) = Ret VUndefined /\
     fst (getHotspotStatus w) = Throw (TypeError "property of undefined") /\
     fst (getThrottleStatus w) = Throw (TypeError "property of undefined")) /\
  (non_2xx st -> b = None ->
     fst (getSettings w) = Throw JsonSyntaxError /\
     fst (getHotspotStatus w) = Throw JsonSyntaxError /\
     fst (getThrottleStatus w) = Throw JsonSyntaxError).
Proof.
  intros Hnet Ht.
  destruct w as [nw tf hp tm evs]; simpl in Hnet; subst nw.
  assert (Hfail : st <> 200 ->
            forall v,
              fst (getHotspotStatus
                     (mkWorld (Responds t st b :: rest) tf hp tm evs)) <> Ret v /\
              fst (getThrottleStatus
                     (mkWorld (Responds t st b :: rest) tf hp tm evs)) <> Ret v).
  { intros Hst v.
    destruct (Z_le_dec 200 st) as [Hlo |];
      [destruct (Z_lt_dec st 300) as [Hhi |] |];
      try (destruct b as [[] |]);
      unfold getHotspotStatus, getThrottleStatus, getSettings, bind;
      exec; decide_status; split; discriminate. }
  split; [| split; [| split; [| split]]].
  - intros v Hv. destruct (Z.eq_dec st 200) as [| Hne]; [assumption |].
    destruct (Hfail Hne v) as [Habs _]. contradiction.
  - intros v Hv. destruct (Z.eq_dec st 200) as [| Hne]; [assumption |].
    destruct (Hfail Hne v) as [_ Habs]. contradiction.
  - intros fields Hst Hb. subst st b.
    unfold getHotspotStatus, getThrottleStatus, getSettings, bind.
    exec. split; reflexivity.
  - intros Hst [H2xx | (Herr & parsed & Hb & Hu & Hn)]; [| subst b];
      unfold getHotspotStatus, getThrottleStatus, getSettings, bind;
      exec; decide_status; repeat split; reflexivity.
  - intros Herr Hb. subst b.
    unfold getHotspotStatus, getThrottleStatus, getSettings, bind.
    exec. repeat split; reflexivity.
Qed.

End StatusReaders.

Lemma settings_status_readers_witness :
  fst (getHotspotStatus (platform := demo_platform)
         (fresh_world [Responds 10 200 (Some (VObj [("hotspot_status", VStr "connected")]))]))
  = Ret (VStr "connected").
Proof.
  exact (proj1
           (proj1 (proj2 (proj2
              (settings_status_readers (platform := demo_platform)
                 (fresh_world
                    [Responds 10 200 (Some (VObj [("hotspot_status", VStr "connected")]))])
                 10 200 (Some (VObj [("hotspot_status", VStr "connected")])) []
                 eq_refl eq_refl)))
              [("hotspot_status", VStr "connected")] eq_refl eq_refl)).
Defined.

(** The claim C10 at a 500 whose body is not JSON: [getSettings] does
    not return [undefined], it throws; and what [getHotspotStatus]
    throws is the error of [json()], not a TypeError. *)
Lemma getHotspotStatus_unreadable_error :
  fst (getSettings (platform := demo_platform)
         (fresh_world [Responds 10 500 None])) = Throw JsonSyntaxError /\
  fst (getSettings (platform := demo_platform)
         (fresh_world [Responds 10 500 None])) <> Ret VUndefined /\
  fst (getHotspotStatus (platform := demo_platform)
         (fresh_world [Responds 10 500 None])) = Throw JsonSyntaxError /\
  (forall what,
     fst (getHotspotStatus (platform := demo_platform)
            (fresh_world [Responds 10 500 None])) <> Throw (TypeError what)).
Proof.
  assert (E1 : fst (getSettings (platform := demo_platform)
                      (fresh_world [Responds 10 500 None])) = Throw JsonSyntaxError)
    by (vm_compute; reflexivity).
  assert (E2 : fst (getHotspotStatus (platform := demo_platform)
                      (fresh_world [Responds 10 500 None])) = Throw JsonSyntaxError)
    by (vm_compute; reflexivity).
  rewrite E1, E2. repeat split; discriminate.
Qed.

(* ================================================================== *)
(** ** Which errors come out of the operation functions *)
(* ================================================================== *)

Local Arguments String.append : simpl never.

Ltac unfold_operations :=
  cbv delta [updateChannel createChannel deleteChannel getChannels getChannel
    searchVideos getVideo deleteVideos getDirectories getStatus getSettings
    saveSettings getDownloads validateRegex getVideosStatistics downloadChannel
    refreshChannel encryptOTP decryptOTP getCategories getBrands getInventories
    getInventory saveInventory updateInventory deleteInventory getItems saveItem
    updateItem deleteItems deleteArchives searchArchives fetchDomains getArchive
    postDownload killDownload killDownloads startDownloads getDownloaders
    deleteDownload filesSearch refreshFiles refreshDirectoryFiles getFiles
    deleteFile fetchFilesProgress getHotspotStatus setHotspot getThrottleStatus
    setThrottle getMapImportStatus importMapFiles clearCompletedDownloads
    clearFailedDownloads getStatistics getEvents getTags addTag removeTag saveTag
    deleteTag fetchFile sendNotification searchDirectories uploadFiles
    array_join delete_prop indexed];
  cbv beta.

Ltac side_failure :=
  first [ assumption | reflexivity
        | unfold times_out; simpl; first [ reflexivity | assumption ]
        | unfold times_out; simpl; apply negb_true_iff; assumption ].

(** Runs an operation in a world whose next request fails. *)
Ltac exec_failure :=
  unfold apiGet, apiPost, apiPut, apiPatch, apiDelete;
  repeat first
    [ progress simpl
    | progress unfold log, alloc, set_heap, set_network, record_timer, try_catch, bind
    | progress unfold get, fetch, await
    | rewrite apiCall_throws_rejected by side_failure
    | rewrite apiCall_throws_timeout by side_failure
    | match goal with
      | |- context [match ?v with VUndefined => _ | _ => _ end] => is_var v; destruct v
      | |- context [truthy ?v] => is_var v; destruct (truthy v)
      | |- context [nth_error ?h ?r] => is_var h; is_var r; destruct (nth_error h r)
      end ].

Ltac close_sends :=
  unfold sends; simpl; rewrite ?fetches_app; simpl; rewrite ?app_nil_r;
  first
    [ intros _; first [ reflexivity | eexists; split; reflexivity ]
    | intros Hs; exfalso; apply Hs; reflexivity ].

(** Runs an operation in a world whose next request gets a response. *)
Ltac exec_response :=
  unfold apiGet, apiPost, apiPut, apiPatch, apiDelete;
  repeat first
    [ progress simpl
    | progress unfold log, alloc, set_heap, set_network, record_timer, try_catch, bind
    | progress unfold get, fetch, await, json
    | rewrite nth_error_at_length
    | rewrite update_nth_at_length
    | rewrite apiCall_returns_2xx by side
    | rewrite apiCall_returns_error by side
    | match goal with
      | |- context [Z.eqb ?a ?b] => destruct (Z.eqb_spec a b); try lia
      | |- context [strict_eq (obj_get ?k ?f) ?n] => destruct (strict_eq (obj_get k f) n)
      | |- context [match ?v with VUndefined => _ | _ => _ end] => is_var v; destruct v
      | |- context [truthy ?v] => is_var v; destruct (truthy v)
      | |- context [nth_error ?h ?r] => is_var h; is_var r; destruct (nth_error h r)
      end ].

Ltac close_absorbed :=
  unfold sends, ret, throw; simpl;
  rewrite ?fetches_app, ?toasts_app; simpl;
  rewrite ?fetches_app, ?toasts_app; simpl;
  rewrite ?app_nil_r;
  (split; [| split]);
  [ first
      [ let Hop := fresh in intros Hop; discriminate Hop
      | let He := fresh in intros _ ? He; discriminate He
      | let He := fresh in let Hs := fresh in
        intros _ ? He Hs; apply Hs; reflexivity ]
  | first
      [ let Hop := fresh in intros Hop; discriminate Hop
      | intros _; reflexivity ]
  | first
      [ let Hs := fresh in intros Hs; exfalso; apply Hs; reflexivity
      | intros _; rewrite <- ?app_assoc; simpl;
        first [ reflexivity | eexists; (split; [| reflexivity]); reflexivity ] ] ].

Section Propagation.

Context {platform : Platform}.

Lemma transport_failure_propagates op args w :
  op <> RefreshChannel ->
  transport_failure w = true ->
  sends w (call op args w) ->
  if catches op then fst (call op args w) = Ret (caught_value op)
  else exists e, fst (call op args w) = Throw e /\ is_transport e = true.
Proof.
  intros Hop Hfail.
  destruct w as [nw tf hp tm evs]. unfold transport_failure in Hfail; simpl in Hfail.
  name_args args.
  revert H.
  destruct nw as [| [t st b | t reason |] rest];
    [ | apply negb_true_iff in Hfail
      | destruct (fetch_first tf 60000 t) eqn:Hrace | ];
    destruct op; try congruence; unfold_operations;
    exec_failure; close_sends.
Qed.

Lemma application_error_absorbed op args w t st parsed rest :
  network w = Responds t st (Some parsed) :: rest ->
  (t < 60000)%N ->
  non_2xx st ->
  parsed <> VUndefined -> parsed <> VNull ->
  absorbed op st parsed w (call op args w).
Proof.
  intros Hnet Ht Hst Hu Hn.
  destruct w as [nw tf hp tm evs]; simpl in Hnet; subst nw.
  unfold non_2xx in Hst.
  name_args args.
  destruct op; unfold_operations; unfold absorbed, notifies_on, bypasses;
    exec_response; try congruence;
    repeat match goal with
           | |- context [nth_error ?h ?r] => destruct (nth_error h r); simpl
           end;
    close_absorbed.
Qed.

End Propagation.

(* ================================================================== *)
(** ** Requests under the timer *)
(* ================================================================== *)

Lemma quiet_guarded {A : Type} (m : M A) : quiet m -> guarded m.
Proof.
  intros Hq w. destruct (Hq w) as (_ & _ & Ht & Hf & Hh & _).
  split; [exact Hh |].
  exists [], []. rewrite !app_nil_r. repeat split; assumption.
Qed.

Lemma guarded_bind {A B : Type} (m : M A) (k : A -> M B) :
  guarded m -> (forall a, guarded (k a)) -> guarded (bind m k).
Proof.
  intros Hm Hk w. unfold bind.
  destruct (Hm w) as (Hh & reqs & tms & Hf & Ht & Hlen & Hact).
  destruct (m w) as [[a | e |] w1]; simpl in *.
  - destruct (Hk a w1) as (Hh' & reqs' & tms' & Hf' & Ht' & Hlen' & Hact').
    split; [exact Hh' |].
    exists (reqs ++ reqs'), (tms ++ tms').
    rewrite Hf', Hf, Ht', Ht, <- !app_assoc, !length_app, existsb_app, Hact, Hact'.
    repeat split. lia.
  - split; [discriminate |]. exists reqs, tms. repeat split; assumption.
  - congruence.
Qed.

Lemma guarded_try_catch {A : Type} (m : M A) (h : error -> M A) :
  guarded m -> (forall e, guarded (h e)) -> guarded (try_catch m h).
Proof.
  intros Hm Hh w. unfold try_catch.
  destruct (Hm w) as (Hhang & reqs & tms & Hf & Ht & Hlen & Hact).
  destruct (m w) as [[a | e |] w1]; simpl in *.
  - split; [discriminate |]. exists reqs, tms. repeat split; assumption.
  - destruct (Hh e w1) as (Hh' & reqs' & tms' & Hf' & Ht' & Hlen' & Hact').
    split; [exact Hh' |].
    exists (reqs ++ reqs'), (tms ++ tms').
    rewrite Hf', Hf, Ht', Ht, <- !app_assoc, !length_app, existsb_app, Hact, Hact'.
    repeat split. lia.
  - congruence.
Qed.

Lemma guarded_if {A : Type} (c : bool) (m1 m2 : M A) :
  guarded m1 -> guarded m2 -> guarded (if c then m1 else m2).
Proof. intros H1 H2. destruct c; assumption. Qed.

Lemma quiet_array_join (v : value) (sep : string) {platform : Platform} :
  quiet (array_join v sep).
Proof.
  destruct v; simpl; first [apply quiet_ret | apply quiet_throw; reflexivity].
Qed.

Lemma quiet_delete_prop (v : value) (k : string) : quiet (delete_prop v k).
Proof.
  destruct v; simpl; first [apply quiet_ret | apply quiet_throw; reflexivity].
Qed.

Lemma quiet_indexed (v : value) : quiet (indexed v).
Proof.
  destruct v; simpl; first [apply quiet_ret | apply quiet_throw; reflexivity].
Qed.

Section Guard.

Context {platform : Platform}.

Lemma guarded_apiCall url meth body ms : guarded (apiCall url meth body ms).
Proof.
  intros w.
  destruct (apiCall_guarded url meth body ms w) as (_ & _ & Ht & Hf & Hh & _).
  split; [exact Hh |].
  exists [(url, make_init meth body)],
         [if times_out w (default_ms ms) then Fired else Cleared].
  repeat split; try assumption.
  destruct (times_out w (default_ms ms)); reflexivity.
Qed.

Ltac guarded_tac :=
  repeat first
    [ apply guarded_apiCall
    | apply guarded_bind; [| intros ? ]
    | apply guarded_try_catch; [| intros ? ]
    | apply guarded_if
    | apply quiet_guarded;
      first [ apply quiet_array_join | apply quiet_delete_prop | apply quiet_indexed
            | solve [quiet_tac] ] ].

(** Every exported operation but [refreshChannel] sends its requests
    under the timer of the executor. *)
Lemma operations_guarded op args :
  op <> RefreshChannel -> guarded (call op args).
Proof.
  intros Hop. unfold call.
  destruct op; try congruence; unfold_operations;
    unfold apiGet, apiPost, apiPut, apiPatch, apiDelete;
    guarded_tac.
Qed.

End Guard.

Lemma refreshChannel_not_guarded {platform : Platform} (channelId : value) :
  ~ guarded (refreshChannel channelId).
Proof.
  intros G. destruct (G (fresh_world [Silent])) as [Hh _].
  apply Hh. reflexivity.
Qed.

(** C8 at [refreshChannel]. It calls fetch itself, so its request has no
    timer and its response does not pass through the executor: when the
    network never answers it waits for ever, and a 403 with code 17
    shows no notification. [downloadChannel], next to it in api.js, goes
    through [apiPost]: in the same two worlds it throws the timeout
    error with its timer fired, and shows the notification of the WROL
    mode. *)
Theorem refreshChannel_bypasses_executor :
  refreshChannel (platform := demo_platform) (VNum 1) (fresh_world [Silent])
  = (Hang,
     mkWorld [] false [] []
       [EvFetch "/api/videos/channels/refresh/1" (mkInit "POST" None)]) /\
  refreshChannel (platform := demo_platform) (VNum 1)
    (fresh_world [Responds 10 403 (Some (VObj [("code", VNum 17)]))])
  = (Ret VUndefined,
     mkWorld [] false [mkResponse 403 (Some (VObj [("code", VNum 17)])) false] []
       [EvFetch "/api/videos/channels/refresh/1" (mkInit "POST" None)]) /\
  fst (downloadChannel (platform := demo_platform) (VNum 1) (fresh_world [Silent]))
  = Throw PromiseTimeout /\
  timers (snd (downloadChannel (platform := demo_platform) (VNum 1)
                 (fresh_world [Silent])))
  = [Fired] /\
  toasts (events (snd (downloadChannel (platform := demo_platform) (VNum 1)
                         (fresh_world
                            [Responds 10 403 (Some (VObj [("code", VNum 17)]))]))))
  = [wrol_toast].
Proof.
  repeat split; vm_compute; reflexivity.
Qed.

Section ErrorPropagation.

Context {platform : Platform}.

(** C7, as the code has it. A transport failure (no reply or a late one,
    so that the timer fires, or a rejection of fetch) is thrown again by
    [apiCall], and comes out as a thrown error of every operation that
    has sent its request through the executor, except [getDownloaders],
    [deleteDownload], [deleteArchives] and [refreshDirectoryFiles]: these
    catch it and return [{downloaders: []}], [null], [undefined] and
    [undefined]. [refreshChannel], which awaits fetch with no timer,
    throws what fetch rejects with and never times out. An application
    error (a status outside [200, 300) with a body that parses to
    anything but [null]) makes neither [apiCall] nor any operation
    throw, except [getHotspotStatus] and [getThrottleStatus], which
    throw a TypeError. Not every operation notifies then: after the
    toast of the executor, if there is one, an operation shows one error
    toast of its own or none, as [notifies_on] says: one for every such
    status for the thirty operations of [notifies], one for [deleteTag]
    except on a 400 whose code is not 38, one for [downloadChannel] only
    on a 400 whose code is 30, and none for all the others. *)
Theorem error_propagation op args w :
  (transport_failure w = true ->
     forall url meth body,
     exists e, fst (apiCall url meth body None w) = Throw e /\ is_transport e = true) /\
  (op <> RefreshChannel -> transport_failure w = true -> sends w (call op args w) ->
     if catches op then fst (call op args w) = Ret (caught_value op)
     else exists e, fst (call op args w) = Throw e /\ is_transport e = true) /\
  (op = RefreshChannel ->
     (forall t reason rest,
        network w = Fails t reason :: rest ->
        fst (call op args w) = Throw (FetchRejected reason)) /\
     (forall rest,
        network w = Silent :: rest -> fst (call op args w) = Hang)) /\
  (forall t st parsed rest,
     network w = Responds t st (Some parsed) :: rest ->
     (t < 60000)%N ->
     non_2xx st ->
     parsed <> VUndefined -> parsed <> VNull ->
     (forall url meth body,
        fst (apiCall url meth body None w) = Ret (VResponse (List.length (heap w)))) /\
     (settings_reader op = false ->
        forall e, fst (call op args w) = Throw e -> ~ sends w (call op args w)) /\
     (settings_reader op = true ->
        fst (call op args w) = Throw (TypeError "property of undefined")) /\
     (sends w (call op args w) ->
        if notifies_on op st parsed
        then exists shown,
               toast_type shown = "error" /\
               toasts (events (snd (call op args w)))
                 = toasts (events w)
                     ++ (if bypasses op then [] else toasts (wrol_events st parsed))
                     ++ [shown]
        else toasts (events (snd (call op args w)))
               = toasts (events w)
                   ++ (if bypasses op then [] else toasts (wrol_events st parsed)))).
Proof.
  split; [| split; [| split]].
  - intros Hfail url meth body.
    destruct w as [nw tf hp tm evs].
    unfold transport_failure in Hfail; simpl in Hfail.
    destruct nw as [| [t st b | t reason |] rest];
      [ | apply negb_true_iff in Hfail
        | destruct (fetch_first tf 60000 t) eqn:Hrace | ];
      first [ rewrite apiCall_throws_rejected by side_failure
            | rewrite apiCall_throws_timeout by side_failure ];
      eexists; split; reflexivity.
  - apply transport_failure_propagates.
  - intros Hop. subst op. split.
    + intros t reason rest Hnet.
      destruct w as [nw tf hp tm evs]; simpl in Hnet; subst nw. reflexivity.
    + intros rest Hnet.
      destruct w as [nw tf hp tm evs]; simpl in Hnet; subst nw. reflexivity.
  - intros t st parsed rest Hnet Ht Hst Hu Hn.
    pose proof (application_error_absorbed op args w t st parsed rest
                  Hnet Ht Hst Hu Hn) as (Ha & Hb & Hc).
    split; [| split; [| split]]; try assumption.
    intros url meth body.
    destruct w as [nw tf hp tm evs]; simpl in Hnet; subst nw.
    rewrite apiCall_returns_error by side. reflexivity.
Qed.

End ErrorPropagation.

Lemma error_propagation_witness :
  (exists e,
     fst (call (platform := demo_platform) GetChannels [] (fresh_world [Silent]))
       = Throw e /\ is_transport e = true) /\
  fst (call (platform := demo_platform) GetDownloaders [] (fresh_world [Silent]))
    = Ret (VObj [("downloaders", VArr [])]).
Proof.
  split.
  - refine (proj1 (proj2
              (error_propagation (platform := demo_platform) GetChannels []
                 (fresh_world [Silent]))) _ eq_refl _).
    + discriminate.
    + unfold sends. vm_compute. discriminate.
  - refine (proj1 (proj2
              (error_propagation (platform := demo_platform) GetDownloaders []
                 (fresh_world [Silent]))) _ eq_refl _).
    + discriminate.
    + unfold sends. vm_compute. discriminate.
Defined.

(** The claim C7 at [getDownloaders] and a network that never answers:
    the timeout does not come out, the call returns. And at
    [getHotspotStatus] and a 500 with a JSON object as body: an
    ordinary HTTP failure comes out as a thrown TypeError. *)
Lemma getDownloaders_swallows_timeout :
  fst (getDownloaders (platform := demo_platform) (fresh_world [Silent]))
    = Ret (VObj [("downloaders", VArr [])]) /\
  (forall e,
     fst (getDownloaders (platform := demo_platform) (fresh_world [Silent]))
       <> Throw e) /\
  fst (getHotspotStatus (platform := demo_platform)
         (fresh_world [Responds 10 500 (Some (VObj [("code", VNum 1)]))]))
    = Throw (TypeError "property of undefined").
Proof.
  assert (E : fst (getDownloaders (platform := demo_platform) (fresh_world [Silent]))
              = Ret (VObj [("downloaders", VArr [])])) by (vm_compute; reflexivity).
  rewrite E. split; [reflexivity |]. split; [intros e; discriminate |].
  vm_compute. reflexivity.
Qed.

(* ================================================================== *)
(** ** More on the executor *)
(* ================================================================== *)

Lemma strict_eq_num (v : value) (n : Z) :
  strict_eq v (VNum n) = true -> v = VNum n.
Proof.
  destruct v; simpl; try discriminate.
  intros H. apply Z.eqb_eq in H. subst. reflexivity.
Qed.

Lemma value_has_props (v : value) :
  {v = VUndefined} + {v = VNull} + {v <> VUndefined /\ v <> VNull}.
Proof.
  destruct v; first [ left; left; reflexivity | left; right; reflexivity
                    | right; split; discriminate ].
Qed.

Section ExecutorMore.

Context {platform : Platform}.

(** X1. A call of [apiCall] sends exactly one request, to the url and with
    the method it was given, with a body exactly when it was given one;
    it takes exactly one reply of the network and sets exactly one timer,
    which is not active in the world the call leaves. There is no second
    attempt. *)
Theorem apiCall_one_request url meth body ms w :
  fetches (events (snd (apiCall url meth body ms w)))
    = fetches (events w) ++ [(url, make_init meth body)] /\
  method (make_init meth body) = meth /\
  (init_body (make_init meth body) = None <-> body = VUndefined) /\
  network (snd (apiCall url meth body ms w)) = tl (network w) /\
  exists s,
    timers (snd (apiCall url meth body ms w)) = timers w ++ [s] /\
    timer_active s = false.
Proof.
  destruct (apiCall_guarded url meth body ms w) as (Hn & _ & Ht & Hf & _ & _).
  repeat split; try assumption.
  - unfold make_init; simpl. destruct body; simpl; intros H; congruence.
  - intros ->. reflexivity.
  - eexists. split; [exact Ht |].
    destruct (times_out w (default_ms ms)); reflexivity.
Qed.

(** X2. [apiCall] shows no notification but the one of the WROL mode, and
    that one only for a response that came in first with status 403 and
    a body whose [code] is 17: not for another code, not for 17 under
    another status, not for a failure of the transport. *)
Theorem apiCall_notifies_only_wrol url meth body ms w :
  toasts (events (snd (apiCall url meth body ms w))) = toasts (events w) \/
  (toasts (events (snd (apiCall url meth body ms w)))
     = toasts (events w) ++ [wrol_toast] /\
   exists t parsed rest,
     network w = Responds t 403 (Some parsed) :: rest /\
     fetch_first (timer_first_on_tie w) (default_ms ms) t = true /\
     code_of parsed = VNum 17).
Proof.
  destruct w as [nw tf hp tm evs].
  destruct (times_out (mkWorld nw tf hp tm evs) (default_ms ms)) eqn:Hto.
  - left. rewrite apiCall_throws_timeout by exact Hto. simpl.
    rewrite toasts_app. simpl. apply app_nil_r.
  - unfold times_out in Hto; simpl in Hto.
    destruct nw as [| [t st b | t reason |] rest]; try discriminate;
      apply negb_false_iff in Hto.
    + destruct (Z_le_dec 200 st) as [Hlo |];
        [destruct (Z_lt_dec st 300) as [Hhi |] |].
      * left. rewrite apiCall_returns_2xx by (assumption || lia). simpl.
        rewrite toasts_app. simpl. apply app_nil_r.
      * assert (Hst : non_2xx st) by (unfold non_2xx; lia).
        destruct b as [parsed |];
          [| left; rewrite apiCall_throws_unreadable by assumption; simpl;
             rewrite toasts_app; simpl; apply app_nil_r].
        destruct (value_has_props parsed) as [[-> | ->] | [Hu Hn]].
        -- left. rewrite apiCall_throws_undefined by assumption. simpl.
           rewrite toasts_app. simpl. apply app_nil_r.
        -- left. rewrite apiCall_throws_null by assumption. simpl.
           rewrite toasts_app. simpl. apply app_nil_r.
        -- rewrite apiCall_returns_error by assumption. simpl.
           rewrite toasts_app. simpl. unfold wrol_events.
           destruct (Z.eqb_spec st 403) as [-> |]; simpl;
             [| left; apply app_nil_r].
           destruct (strict_eq (code_of parsed) (VNum 17)) eqn:Hcode;
             [| left; apply app_nil_r].
           right. split; [reflexivity |].
           exists t, parsed, rest. repeat split; try assumption.
           apply strict_eq_num. exact Hcode.
      * assert (Hst : non_2xx st) by (unfold non_2xx; lia).
        destruct b as [parsed |];
          [| left; rewrite apiCall_throws_unreadable by assumption; simpl;
             rewrite toasts_app; simpl; apply app_nil_r].
        destruct (value_has_props parsed) as [[-> | ->] | [Hu Hn]].
        -- left. rewrite apiCall_throws_undefined by assumption. simpl.
           rewrite toasts_app. simpl. apply app_nil_r.
        -- left. rewrite apiCall_throws_null by assumption. simpl.
           rewrite toasts_app. simpl. apply app_nil_r.
        -- rewrite apiCall_returns_error by assumption. simpl.
           rewrite toasts_app. simpl. unfold wrol_events.
           destruct (Z.eqb_spec st 403) as [-> |]; simpl;
             [| left; apply app_nil_r].
           lia.
    + left. rewrite apiCall_throws_rejected by assumption. simpl.
      rewrite toasts_app. simpl. apply app_nil_r.
Qed.

End ExecutorMore.

(* ================================================================== *)
(** ** One request at most *)
(* ================================================================== *)

Lemma quiet_no_request {A : Type} (m : M A) : quiet m -> no_request m.
Proof.
  intros Hq w. destruct (Hq w) as (Hn & _ & _ & Hf & _). split; assumption.
Qed.

Lemma no_request_await (p : promise) : no_request (await p).
Proof.
  intros w. destruct p as [t [res | err] |]; simpl; split; reflexivity.
Qed.

Lemma no_request_bind {A B : Type} (m : M A) (k : A -> M B) :
  no_request m -> (forall a, no_request (k a)) -> no_request (bind m k).
Proof.
  intros Hm Hk w. unfold bind. destruct (Hm w) as [Hf Hn].
  destruct (m w) as [[a | e |] w1]; simpl in *; try (split; assumption).
  destruct (Hk a w1) as [Hf' Hn']. split; congruence.
Qed.

Lemma no_request_single_shot {A : Type} (m : M A) : no_request m -> single_shot m.
Proof. intros H w. left. apply H. Qed.

Lemma single_shot_bind_left {A B : Type} (m : M A) (k : A -> M B) :
  no_request m -> (forall a, single_shot (k a)) -> single_shot (bind m k).
Proof.
  intros Hm Hk w. unfold bind. destruct (Hm w) as [Hf Hn].
  destruct (m w) as [[a | e |] w1]; simpl in *; try (left; split; assumption).
  destruct (Hk a w1) as [[Hf' Hn'] | (req & Hf' & Hn')].
  - left. split; congruence.
  - right. exists req. split; congruence.
Qed.

Lemma single_shot_bind_right {A B : Type} (m : M A) (k : A -> M B) :
  single_shot m -> (forall a, no_request (k a)) -> single_shot (bind m k).
Proof.
  intros Hm Hk w. unfold bind.
  destruct (Hm w) as [[Hf Hn] | (req & Hf & Hn)];
    destruct (m w) as [[a | e |] w1]; simpl in *;
    try (left; split; assumption);
    try (right; exists req; split; assumption);
    destruct (Hk a w1) as [Hf' Hn'].
  - left. split; congruence.
  - right. exists req. split; congruence.
Qed.

Lemma single_shot_try_catch {A : Type} (m : M A) (h : error -> M A) :
  single_shot m -> (forall e, no_request (h e)) -> single_shot (try_catch m h).
Proof.
  intros Hm Hh w. unfold try_catch.
  destruct (Hm w) as [[Hf Hn] | (req & Hf & Hn)];
    destruct (m w) as [[a | e |] w1]; simpl in *;
    try (left; split; assumption);
    try (right; exists req; split; assumption);
    destruct (Hh e w1) as [Hf' Hn'].
  - left. split; congruence.
  - right. exists req. split; congruence.
Qed.

Lemma single_shot_if {A : Type} (c : bool) (m1 m2 : M A) :
  single_shot m1 -> single_shot m2 -> single_shot (if c then m1 else m2).
Proof. intros H1 H2. destruct c; assumption. Qed.

Lemma single_shot_fetch (url : string) (init : Init) : single_shot (fetch url init).
Proof.
  intros [nw tf hp tm evs]. right. exists (url, init). unfold fetch.
  destruct nw as [| [t st b | t reason |] rest]; simpl;
    rewrite fetches_app; split; reflexivity.
Qed.

Ltac no_request_tac :=
  repeat first
    [ apply no_request_await
    | apply quiet_no_request;
      first [ apply quiet_array_join | apply quiet_delete_prop | apply quiet_indexed
            | solve [quiet_tac] ]
    | apply no_request_bind; [| intros ? ] ].

Section SingleShot.

Context {platform : Platform}.

Lemma single_shot_apiCall url meth body ms : single_shot (apiCall url meth body ms).
Proof.
  intros w. right. exists (url, make_init meth body).
  destruct (apiCall_guarded url meth body ms w) as (Hn & _ & _ & Hf & _).
  split; assumption.
Qed.

Ltac single_shot_tac :=
  repeat first
    [ apply single_shot_apiCall
    | apply single_shot_fetch
    | apply single_shot_if
    | apply no_request_single_shot; solve [no_request_tac]
    | apply single_shot_bind_left; [solve [no_request_tac] | intros ? ]
    | apply single_shot_bind_right; [| intros ?; solve [no_request_tac] ]
    | apply single_shot_try_catch; [| intros ?; solve [no_request_tac] ] ].

(** X4. No exported operation sends more than one request, whatever its
    arguments are and whatever the network does: a failure is never
    followed by a second attempt, and no operation calls a second
    endpoint. *)
Theorem operations_single_shot op args : single_shot (call op args).
Proof.
  unfold call.
  destruct op; unfold_operations;
    unfold apiGet, apiPost, apiPut, apiPatch, apiDelete;
    single_shot_tac.
Qed.

End SingleShot.

(* ================================================================== *)
(** ** Operations and callers that catch everything *)
(* ================================================================== *)

(** All the ways the next request can go. *)
Ltac split_world w :=
  let nw := fresh "nw" in
  let tf := fresh "tf" in
  let hp := fresh "hp" in
  let tm := fresh "tm" in
  let evs := fresh "evs" in
  let t := fresh "t" in
  let st := fresh "st" in
  let b := fresh "b" in
  let reason := fresh "reason" in
  let rest := fresh "rest" in
  let parsed := fresh "parsed" in
  let Hrace := fresh "Hrace" in
  destruct w as [nw tf hp tm evs];
  destruct nw as [| [t st b | t reason |] rest];
  [ | destruct (fetch_first tf 60000 t) eqn:Hrace;
      [ destruct (Z_le_dec 200 st);
        [ destruct (Z_lt_dec st 300) | ];
        try (destruct b as [parsed |];
             [ destruct (value_has_props parsed) as [[-> | ->] | [? ?]] | ])
      | ]
    | destruct (fetch_first tf 60000 t) eqn:Hrace
    | ].

Ltac side_any :=
  first [ assumption | lia | unfold non_2xx; lia
        | unfold times_out; simpl;
          repeat match goal with
                 | H : fetch_first _ _ _ = _ |- _ => rewrite H
                 end;
          reflexivity ].

(** Runs an operation in a world split by [split_world]. *)
Ltac exec_any :=
  unfold apiGet, apiPost, apiPut, apiPatch, apiDelete;
  repeat first
    [ progress simpl
    | progress unfold log, alloc, set_heap, set_network, record_timer, try_catch, bind
    | progress unfold get, fetch, await, json
    | rewrite nth_error_at_length
    | rewrite update_nth_at_length
    | rewrite apiCall_returns_2xx by side_any
    | rewrite apiCall_returns_error by side_any
    | rewrite apiCall_throws_unreadable by side_any
    | rewrite apiCall_throws_null by side_any
    | rewrite apiCall_throws_undefined by side_any
    | rewrite apiCall_throws_rejected by side_any
    | rewrite apiCall_throws_timeout by side_any
    | match goal with
      | |- context [Z.eqb ?a ?b] => destruct (Z.eqb_spec a b); try lia
      end ].

Ltac on_response w Hnet :=
  let nw := fresh "nw" in
  let tf := fresh "tf" in
  let hp := fresh "hp" in
  let tm := fresh "tm" in
  let evs := fresh "evs" in
  destruct w as [nw tf hp tm evs]; simpl in Hnet; subst nw.

Ltac run := repeat (progress (exec; decide_status)).

Ltac tidy_toasts :=
  simpl; rewrite ?toasts_app; simpl; rewrite ?toasts_app; simpl;
  rewrite ?app_nil_r; rewrite <- ?app_assoc; simpl.

Section CatchAll.

Context {platform : Platform}.


End CatchAll.

(* ================================================================== *)
(** ** The map page and the archive page *)
(* ================================================================== *)

Ltac open_parsed :=
  repeat match goal with
         | H : ?p <> VUndefined |- _ => is_var p; destruct p; try congruence
         end;
  repeat match goal with
         | |- context [nth_error ?h ?r] => is_var r; destruct (nth_error h r)
         end.

Lemma indexOf_absent_snoc (x : value) (items : list value) :
  strict_eq x x = true ->
  indexOf x items = None ->
  indexOf x (items ++ [x]) = Some (List.length items).
Proof.
  intros Hx. induction items as [| y items IH]; simpl; intros Habs.
  - rewrite Hx. reflexivity.
  - destruct (strict_eq y x); [discriminate |].
    destruct (indexOf x items); [discriminate |].
    rewrite IH by reflexivity. reflexivity.
Qed.

Lemma splice1_snoc (x : value) (items : list value) :
  splice1 (List.length items) (items ++ [x]) = items.
Proof.
  induction items as [| y items IH]; simpl; [reflexivity | now rewrite IH].
Qed.

Section Pages.

Context {platform : Platform}.

(** X6. [fetchImportStatus] of the map page never throws. On a 200 that
    came in first with a body that has properties it gives the state the
    four fields of that body; in every other case (a transport failure,
    another status, a body that cannot be read or is [null]) the state
    stays what it was. *)
Theorem fetchImportStatus_keeps_state state w :
  let updated parsed :=
    setState [("files", field_of parsed "files");
              ("importing", field_of parsed "importing");
              ("import_running", field_of parsed "import_running");
              ("dockerized", field_of parsed "dockerized")] state in
  (forall e, fst (fetchImportStatus state w) <> Throw e) /\
  (forall t parsed rest,
     network w = Responds t 200 (Some parsed) :: rest ->
     fetch_first (timer_first_on_tie w) 60000 t = true ->
     parsed <> VUndefined -> parsed <> VNull ->
     fst (fetchImportStatus state w) = Ret (updated parsed)) /\
  ((exists t parsed rest,
      network w = Responds t 200 (Some parsed) :: rest /\
      fetch_first (timer_first_on_tie w) 60000 t = true /\
      parsed <> VUndefined /\ parsed <> VNull) \/
   fst (fetchImportStatus state w) = Ret state).
Proof.
  intros updated. subst updated.
  split; [| split].
  - intros e.
    split_world w; unfold fetchImportStatus, getMapImportStatus;
      exec_any; try discriminate;
      open_parsed; exec_any; discriminate.
  - intros t parsed rest Hnet Hrace Hu Hn. on_response w Hnet. simpl in Hrace.
    unfold fetchImportStatus, getMapImportStatus.
    exec_any; open_parsed; exec_any; reflexivity.
  - split_world w; unfold fetchImportStatus, getMapImportStatus;
      exec_any; try (right; reflexivity);
      open_parsed; exec_any;
      try (right; reflexivity);
      subst; left; do 3 eexists; (split; [reflexivity |]);
      (split; [ assumption | split; discriminate ]).
Qed.

(** X7. Ticking the box of a file that is not selected and then unticking it
    gives back the selection as it was; unticking a file that is not
    selected changes nothing. *)
Theorem handleCheckbox_round_trip pbf fields selectedPaths w :
  pbf = VObj fields ->
  strict_eq (obj_get "path" fields) (obj_get "path" fields) = true ->
  indexOf (obj_get "path" fields) selectedPaths = None ->
  (ticked <- handleCheckbox (VBool true) pbf selectedPaths ;;
   handleCheckbox (VBool false) pbf ticked)%js w
    = (Ret selectedPaths, w) /\
  handleCheckbox (VBool true) pbf selectedPaths w
    = (Ret (selectedPaths ++ [obj_get "path" fields]), w) /\
  handleCheckbox (VBool false) pbf selectedPaths w = (Ret selectedPaths, w).
Proof.
  intros -> Hrefl Habs.
  unfold handleCheckbox, bind; simpl.
  rewrite (indexOf_absent_snoc _ _ Hrefl Habs), splice1_snoc, Habs.
  repeat split.
Qed.

(** X8. [localDeleteArchive] never throws, and whenever it returns it has
    just shown "Archive Deleted", even when the delete failed: after the
    error toast of [deleteArchives] when the reply did not come in time
    or was an error whose body cannot be read, and with no error toast
    at all after a response that the executor handed back, an error
    response included. *)
Theorem localDeleteArchive_always_reports_success navigate data fields w :
  (forall z w', navigate z w' = (Ret tt, w')) ->
  data = VObj fields ->
  let deleted :=
    mkToast "success" "Archive Deleted"
      (VStr "Archive was successfully deleted.") 2000 in
  let failed :=
    error_toast "Unexpected server response" "Unable to delete archives" in
  (forall e, fst (localDeleteArchive navigate data w) <> Throw e) /\
  (fst (localDeleteArchive navigate data w) = Ret tt ->
     exists before,
       toasts (events (snd (localDeleteArchive navigate data w)))
         = toasts (events w) ++ before ++ [deleted]) /\
  (transport_failure w = true ->
     fst (localDeleteArchive navigate data w) = Ret tt /\
     toasts (events (snd (localDeleteArchive navigate data w)))
       = toasts (events w) ++ [failed; deleted]) /\
  (forall t st b rest,
     network w = Responds t st b :: rest ->
     (t < 60000)%N ->
     (200 <= st < 300 ->
        fst (localDeleteArchive navigate data w) = Ret tt /\
        toasts (events (snd (localDeleteArchive navigate data w)))
          = toasts (events w) ++ [deleted]) /\
     (forall parsed,
        non_2xx st -> b = Some parsed -> parsed <> VUndefined -> parsed <> VNull ->
        fst (localDeleteArchive navigate data w) = Ret tt /\
        toasts (events (snd (localDeleteArchive navigate data w)))
          = toasts (events w) ++ toasts (wrol_events st parsed) ++ [deleted]) /\
     (non_2xx st -> b = None \/ b = Some VNull ->
        fst (localDeleteArchive navigate data w) = Ret tt /\
        toasts (events (snd (localDeleteArchive navigate data w)))
          = toasts (events w) ++ [failed; deleted])).
Proof.
  intros Hnav -> deleted failed. subst deleted failed.
  split; [| split; [| split]].
  - intros e.
    split_world w; unfold localDeleteArchive, deleteArchives, array_join;
      exec_any; rewrite ?Hnav; simpl; discriminate.
  - intros _.
    split_world w; unfold localDeleteArchive, deleteArchives, array_join;
      exec_any; rewrite ?Hnav; tidy_toasts;
      first
        [ exists [error_toast "Unexpected server response" "Unable to delete archives"];
          reflexivity
        | exists []; reflexivity
        | eexists; reflexivity ].
  - intros Hfail.
    split_world w; unfold transport_failure in Hfail; simpl in Hfail;
      rewrite ?Hrace in Hfail; try discriminate Hfail;
      unfold localDeleteArchive, deleteArchives, array_join;
      exec_any; rewrite ?Hnav; tidy_toasts; split; reflexivity.
  - intros t st b rest Hnet Ht. on_response w Hnet.
    pose proof (before_fetch_first tf _ _ Ht) as Hrace.
    split; [| split].
    + intros H2xx.
      unfold localDeleteArchive, deleteArchives, array_join.
      exec_any. rewrite ?Hnav. tidy_toasts. split; reflexivity.
    + intros parsed Herr -> Hu Hn. unfold non_2xx in Herr.
      unfold localDeleteArchive, deleteArchives, array_join.
      exec_any. rewrite ?Hnav. tidy_toasts. split; reflexivity.
    + intros Herr Hb. unfold non_2xx in Herr.
      unfold localDeleteArchive, deleteArchives, array_join.
      destruct Hb as [-> | ->]; exec_any; rewrite ?Hnav; tidy_toasts;
        split; reflexivity.
Qed.

(** When the executor throws, it has shown nothing, and what it throws
    is never the error of [postDownload]. *)
Lemma apiCall_throw_shows_nothing url meth body w e :
  fst (apiCall url meth body None w) = Throw e ->
  toasts (events (snd (apiCall url meth body None w))) = toasts (events w) /\
  e <> DownloaderRequired.
Proof.
  split_world w; exec_any; intros He; try discriminate He;
    inversion He; subst; tidy_toasts; split; first [reflexivity | discriminate].
Qed.

(** X9. [localUpdateArchive] always sends one request, for the url of the
    archive with the downloader ['archive'], so that the error of the
    missing downloader cannot happen. What the executor throws comes out
    of [localUpdateArchive] as it is, and no toast is shown then; this
    is what happens when the reply does not come in time. When the
    executor returns, [localUpdateArchive] shows "Archive Downloading"
    and returns, for every response handed back, whatever its status:
    [postDownload] returns the raw response and nobody looks at it. *)
Theorem localUpdateArchive_outcomes data fields w :
  data = VObj fields ->
  let request :=
    apiCall (API_URI ++ "/download")%string "POST"
      (VObj [("urls", obj_get "url" fields);
             ("downloader", VStr "archive");
             ("frequency", VNull);
             ("excluded_urls", VUndefined);
             ("destination", VNull)]) None w in
  let scheduled :=
    mkToast "success" "Archive Downloading"
      (VStr "Archive update has been scheduled.") 2000 in
  fetches (events (snd (localUpdateArchive data w)))
    = fetches (events w)
        ++ [((API_URI ++ "/download")%string,
             make_init "POST"
               (VObj [("urls", obj_get "url" fields);
                      ("downloader", VStr "archive");
                      ("frequency", VNull);
                      ("excluded_urls", VUndefined);
                      ("destination", VNull)]))] /\
  (forall e,
     fst request = Throw e ->
     localUpdateArchive data w = (Throw e, snd request) /\
     e <> DownloaderRequired /\
     toasts (events (snd (localUpdateArchive data w))) = toasts (events w)) /\
  (forall response,
     fst request = Ret response ->
     localUpdateArchive data w = (Ret tt, log (EvToast scheduled) (snd request))) /\
  (transport_failure w = true ->
     exists e, fst (localUpdateArchive data w) = Throw e /\ is_transport e = true) /\
  (forall t st b rest,
     network w = Responds t st b :: rest ->
     (t < 60000)%N ->
     handed_back st b ->
     fst (localUpdateArchive data w) = Ret tt).
Proof.
  intros -> request scheduled.
  assert (Hrun :
    localUpdateArchive (VObj fields) w
    = match request with
      | (Ret _, w1) => (Ret tt, log (EvToast scheduled) w1)
      | (Throw e, w1) => (Throw e, w1)
      | (Hang, w1) => (Hang, w1)
      end).
  { subst request scheduled.
    unfold localUpdateArchive, postDownload, assign_if, apiPost, bind, toast, or_else;
      simpl.
    match goal with
    | |- context [apiCall ?u ?m ?b None w] =>
        destruct (apiCall u m b None w) as [[r | e |] w1]; reflexivity
    end. }
  split; [| split; [| split; [| split]]].
  - rewrite Hrun. subst request.
    match goal with
    | |- context [apiCall ?u ?m ?b None w] =>
        destruct (apiCall_guarded u m b None w) as (_ & _ & _ & Hf & _);
        destruct (apiCall u m b None w) as [[r | e |] w1]
    end; cbn [fst snd] in *; unfold log; simpl;
      rewrite ?fetches_app; simpl; rewrite ?app_nil_r; exact Hf.
  - intros e He. rewrite Hrun.
    destruct (apiCall_throw_shows_nothing _ _ _ _ _ He) as [Ht Hne].
    fold request in Ht.
    destruct request as [[r | e' |] w1]; cbn [fst snd] in *; try discriminate He.
    inversion He; subst e'. repeat split; assumption.
  - intros response He. rewrite Hrun.
    destruct request as [[r | e' |] w1]; cbn [fst snd] in *; try discriminate He.
    reflexivity.
  - intros Hfail. rewrite Hrun. subst request.
    split_world w; unfold transport_failure in Hfail; simpl in Hfail;
      rewrite ?Hrace in Hfail; try discriminate Hfail;
      exec_any; eexists; split; reflexivity.
  - intros t st b rest Hnet Ht Hback. rewrite Hrun. subst request.
    on_response w Hnet.
    destruct Hback as [H2xx | (Herr & parsed & -> & Hu & Hn)]; exec; reflexivity.
Qed.

Lemma file_paths_objects (files : list value) (w : World) :
  Forall (fun f => f <> VUndefined /\ f <> VNull) files ->
  file_paths files w = (Ret (map (fun f => field_of f "path") files), w).
Proof.
  induction 1 as [| f files [Hu Hn] _ IH]; simpl; [reflexivity |].
  unfold bind.
  assert (Hget : get f "path" w = (Ret (field_of f "path"), w)).
  { destruct f; simpl; try congruence; try reflexivity.
    destruct (nth_error (heap w) ref); reflexivity. }
  rewrite Hget, IH. reflexivity.
Qed.

Lemma importMapFiles_sends (paths : value) (w : World) :
  fetches (events (snd (importMapFiles paths w)))
    = fetches (events w)
        ++ [((API_URI ++ "/map/import")%string,
             make_init "POST" (VObj [("files", paths)]))] /\
  network (snd (importMapFiles paths w)) = tl (network w) /\
  fst (importMapFiles paths w) <> Hang.
Proof.
  split_world w; unfold importMapFiles; exec_any;
    rewrite ?fetches_app; simpl; rewrite ?fetches_app; simpl;
    rewrite ?app_nil_r;
    try (repeat split; first [reflexivity | discriminate]);
    unfold wrol_events;
    match goal with
    | |- context [if ?c then _ else _] => destruct c; simpl
    end;
    rewrite ?app_nil_r; repeat split; first [reflexivity | discriminate].
Qed.

Lemma fetchImportStatus_sends state (w : World) :
  fetches (events (snd (fetchImportStatus state w)))
    = fetches (events w)
        ++ [((API_URI ++ "/map/files")%string, make_init "GET" VUndefined)] /\
  exists state', fst (fetchImportStatus state w) = Ret state'.
Proof.
  split_world w; unfold fetchImportStatus, getMapImportStatus;
    exec_any; open_parsed; exec_any;
    rewrite ?fetches_app; simpl; rewrite ?fetches_app; simpl;
    rewrite ?fetches_app; simpl; rewrite ?app_nil_r;
    try (split; [reflexivity | eexists; reflexivity]);
    unfold wrol_events;
    match goal with
    | |- context [if ?c then _ else _] => destruct c; simpl
    end;
    rewrite ?app_nil_r; (split; [reflexivity | eexists; reflexivity]).
Qed.

(** X10. [import] of the map page asks for the import of the selected
    paths, and of the paths of all the files when none is selected. What
    that call throws comes out of [import] as it is, with nothing else
    sent; this is what happens when the reply does not come in time.
    When that call returns, [import] goes on as [fetchImportStatus],
    which asks for the import status. *)
Theorem import_requests state files selectedPaths w :
  obj_get "files" state = VArr files ->
  Forall (fun f => f <> VUndefined /\ f <> VNull) files ->
  obj_get "selectedPaths" state = VArr selectedPaths ->
  let paths :=
    match selectedPaths with
    | [] => map (fun f => field_of f "path") files
    | _ => selectedPaths
    end in
  let first_request :=
    ((API_URI ++ "/map/import")%string,
     make_init "POST" (VObj [("files", VArr paths)])) in
  let status_request :=
    ((API_URI ++ "/map/files")%string, make_init "GET" VUndefined) in
  let first := importMapFiles (VArr paths) w in
  let status :=
    fetchImportStatus (setState [("ready", VBool false)] state) (snd first) in
  fetches (events (snd first)) = fetches (events w) ++ [first_request] /\
  (forall e,
     fst first = Throw e ->
     import state w = (Throw e, snd first)) /\
  (forall r,
     fst first = Ret r ->
     import state w = status /\
     fetches (events (snd status))
       = fetches (events w) ++ [first_request; status_request]) /\
  (transport_failure w = true ->
     exists e, fst (import state w) = Throw e /\ is_transport e = true).
Proof.
  intros Hfiles Hobjs Hsel paths first_request status_request first status.
  assert (Hrun :
    import state w
    = match first with
      | (Ret _, w1) =>
          fetchImportStatus (setState [("ready", VBool false)] state) w1
      | (Throw e, w1) => (Throw e, w1)
      | (Hang, w1) => (Hang, w1)
      end).
  { subst first. unfold import. rewrite Hfiles, Hsel.
    destruct selectedPaths as [| p sel]; subst paths; cbn [negb truthy orb].
    - unfold bind, indexed, items_of, ret.
      rewrite file_paths_objects by exact Hobjs.
      destruct (importMapFiles _ w) as [[v | e |] w1]; reflexivity.
    - unfold bind, ret.
      destruct (importMapFiles _ w) as [[v | e |] w1]; reflexivity. }
  destruct (importMapFiles_sends (VArr paths) w) as (Hf & _ & _).
  fold first in Hf. fold first_request in Hf.
  split; [exact Hf |]. split; [| split].
  - intros e He. rewrite Hrun.
    destruct first as [[v | e' |] w1]; cbn [fst snd] in *; try discriminate He.
    congruence.
  - intros r He. subst status. rewrite Hrun.
    destruct first as [[v | e' |] w1]; cbn [fst snd] in *; try discriminate He.
    split; [reflexivity |].
    destruct (fetchImportStatus_sends (setState [("ready", VBool false)] state) w1)
      as (Hf2 & _).
    rewrite Hf2, Hf, <- app_assoc. reflexivity.
  - intros Hfail. rewrite Hrun. subst first.
    split_world w; unfold transport_failure in Hfail; simpl in Hfail;
      rewrite ?Hrace in Hfail; try discriminate Hfail;
      unfold importMapFiles; exec_any; eexists; split; reflexivity.
Qed.

End Pages.

(* ================================================================== *)
(** ** Polling *)
(* ================================================================== *)

Section Polling.

Context {platform : Platform}.

(** X11. Polling is idempotent in the client: when the network gives the same
    reply twice, the second call of [getStatus], of [getEvents] and of
    [fetchFilesProgress] ends exactly as the first did. Nothing that a
    call leaves behind (the Response objects, the timers, the log)
    changes what the next one returns. *)
Theorem polling_idempotent w reply rest :
  network w = reply :: reply :: rest ->
  fst (getStatus (snd (getStatus w))) = fst (getStatus w) /\
  (forall after,
     fst (getEvents after (snd (getEvents after w))) = fst (getEvents after w)) /\
  fst (fetchFilesProgress (snd (fetchFilesProgress w))) = fst (fetchFilesProgress w).
Proof.
  intros Hnet.
  destruct w as [nw tf hp tm evs]; simpl in Hnet; subst nw.
  assert (Hcases :
    (exists t st b, reply = Responds t st b /\ fetch_first tf 60000 t = true) \/
    times_out (mkWorld (reply :: reply :: rest) tf hp tm evs) 60000 = true \/
    (exists t reason, reply = Fails t reason /\ fetch_first tf 60000 t = true)).
  { unfold times_out; simpl. destruct reply as [t st b | t reason |].
    - destruct (fetch_first tf 60000 t) eqn:E; [left; eauto | right; left; reflexivity].
    - destruct (fetch_first tf 60000 t) eqn:E;
        [right; right; eauto | right; left; reflexivity].
    - right; left; reflexivity. }
  destruct Hcases as [(t & st & b & -> & Hrace) | [Hto | (t & reason & -> & Hrace)]].
  - destruct (Z_le_dec 200 st); [destruct (Z_lt_dec st 300) |];
      try (destruct b as [parsed |];
           [destruct (value_has_props parsed) as [[-> | ->] | [? ?]] |]);
      (split; [| split; [intros after |]]);
      unfold getStatus, getEvents, fetchFilesProgress;
      exec_any; repeat (progress (open_parsed; exec_any)); reflexivity.
  - assert (Hto' : forall hp' tm' evs',
              times_out (mkWorld (reply :: rest) tf hp' tm' evs') 60000 = true)
      by (intros; exact Hto).
    (split; [| split; [intros after |]]);
      unfold getStatus, getEvents, fetchFilesProgress, bind,
        apiGet;
      repeat (rewrite apiCall_throws_timeout
                by first [exact Hto | apply Hto']; simpl);
      reflexivity.
  - (split; [| split; [intros after |]]);
      unfold getStatus, getEvents, fetchFilesProgress;
      exec_any; reflexivity.
Qed.

End Polling.

(* ================================================================== *)
(** ** What the operations send *)
(* ================================================================== *)

Lemma obj_has_delete (k : string) (fields : list (string * value)) :
  obj_has k (obj_delete k fields) = false.
Proof.
  induction fields as [| [k' v] fields IH]; simpl; [reflexivity |].
  destruct (String.eqb_spec k k') as [| Hne]; simpl; [exact IH |].
  destruct (String.eqb_spec k k'); [contradiction | exact IH].
Qed.

Lemma obj_get_delete_other (k k' : string) (fields : list (string * value)) :
  k' <> k -> obj_get k' (obj_delete k fields) = obj_get k' fields.
Proof.
  intros Hne. induction fields as [| [k'' v] fields IH]; simpl; [reflexivity |].
  destruct (String.eqb_spec k k'') as [<- | Hk]; simpl.
  - destruct (String.eqb_spec k' k); [contradiction | exact IH].
  - destruct (String.eqb_spec k' k''); [reflexivity | exact IH].
Qed.

Section Requests.

Context {platform : Platform}.

(** A call of the executor followed by code that sends nothing. *)
Lemma apiCall_then_fetches {A : Type} url meth body ms (k : value -> M A) w :
  (forall a, no_request (k a)) ->
  fetches (events (snd (bind (apiCall url meth body ms) k w)))
    = fetches (events w) ++ [(url, make_init meth body)].
Proof.
  intros Hk. unfold bind.
  destruct (apiCall_guarded url meth body ms w) as (_ & _ & _ & Hf & _).
  destruct (apiCall url meth body ms w) as [[a | e |] w1]; simpl in *;
    try exact Hf.
  destruct (Hk a w1) as [Hf' _]. congruence.
Qed.

(** X12. [updateInventory] never sends the [id] of the inventory: whatever
    the network does, its one request is a PUT of the inventory without
    that key and with every other key as it was. An inventory that is
    [null] or [undefined] is a TypeError, and nothing is sent. *)
Theorem updateInventory_strips_id inventoryId inventory w :
  (forall fields,
     inventory = VObj fields ->
     fetches (events (snd (updateInventory inventoryId inventory w)))
       = fetches (events w)
           ++ [((API_URI ++ "/inventory/" ++ to_string inventoryId)%string,
                make_init "PUT" (VObj (obj_delete "id" fields)))] /\
     obj_has "id" (obj_delete "id" fields) = false /\
     (forall k, k <> "id" ->
        obj_get k (obj_delete "id" fields) = obj_get k fields)) /\
  (inventory = VUndefined \/ inventory = VNull ->
     (exists what,
        fst (updateInventory inventoryId inventory w) = Throw (TypeError what)) /\
     snd (updateInventory inventoryId inventory w) = w).
Proof.
  split.
  - intros fields ->. split; [| split].
    + unfold updateInventory, apiPut. unfold bind at 1. simpl.
      rewrite <- (app_nil_r (fetches (events w))) at 1.
      destruct (apiCall_guarded
                  (API_URI ++ "/inventory/" ++ to_string inventoryId)%string
                  "PUT" (VObj (obj_delete "id" fields)) None w)
        as (_ & _ & _ & Hf & _).
      rewrite app_nil_r. exact Hf.
    + apply obj_has_delete.
    + intros k Hk. apply obj_get_delete_other. exact Hk.
  - intros [-> | ->]; (split; [eexists; reflexivity | reflexivity]).
Qed.

(** X13. [searchVideos] sends, whatever the network does, one POST whose body
    always has [offset], [limit] and [order_by], with 0, the default
    limit and ['rank'] standing in for a missing one, and has
    [search_str], [channel_id], [tag_names] and [headline] exactly when
    the argument is truthy: an empty search string is left out. *)
Theorem searchVideos_request_body
  offset limit channelId searchStr order_by tagNames headline w :
  exists sent,
    fetches (events (snd (searchVideos offset limit channelId searchStr order_by
                            tagNames headline w)))
      = fetches (events w)
          ++ [((VIDEOS_API ++ "/search")%string, make_init "POST" (VObj sent))] /\
    obj_get "offset" sent = parseInt (or_else offset (VNum 0)) /\
    obj_get "limit" sent = parseInt (or_else limit DEFAULT_LIMIT) /\
    obj_get "order_by" sent = or_else order_by (VStr "rank") /\
    obj_has "search_str" sent = truthy searchStr /\
    obj_has "channel_id" sent = truthy channelId /\
    obj_has "tag_names" sent = truthy tagNames /\
    obj_has "headline" sent = truthy headline /\
    (truthy searchStr = true -> obj_get "search_str" sent = searchStr) /\
    (truthy channelId = true -> obj_get "channel_id" sent = parseInt channelId) /\
    (truthy tagNames = true -> obj_get "tag_names" sent = tagNames) /\
    (truthy headline = true -> obj_get "headline" sent = VBool true).
Proof.
  eexists. split.
  - unfold searchVideos, apiPost. unfold bind at 1. unfold console.
    cbv beta iota.
    rewrite apiCall_then_fetches by (intros; no_request_tac).
    unfold log; simpl. rewrite fetches_app; simpl. rewrite app_nil_r.
    reflexivity.
  - unfold assign_if.
    destruct (truthy searchStr), (truthy channelId), (truthy tagNames),
      (truthy headline); simpl; repeat split; intros; congruence.
Qed.

(** X14. [uploadFiles] sends nothing: whatever it is given and whatever
    the network could do, it only logs the form it has filled, one
    [file] part for each file and then the destination, and returns. The
    files are the items of an array, or the properties [0], [1], ... of
    an array-like object (a FileList) below its [length]. Files that are
    [null] or [undefined] are a TypeError. *)
Theorem uploadFiles_sends_nothing files destination w :
  fetches (events (snd (uploadFiles files destination w))) = fetches (events w) /\
  network (snd (uploadFiles files destination w)) = network w /\
  timers (snd (uploadFiles files destination w)) = timers w /\
  toasts (events (snd (uploadFiles files destination w))) = toasts (events w) /\
  (forall items,
     files = VArr items ->
     uploadFiles files destination w
       = (Ret VUndefined,
          log (EvConsole LLog
                 [CVal (VObj (map (fun f => ("file", f)) items
                                ++ [("destination", destination)]))]) w)) /\
  (forall fields n,
     files = VObj fields ->
     obj_get "length" fields = VNum n ->
     uploadFiles files destination w
       = (Ret VUndefined,
          log (EvConsole LLog
                 [CVal (VObj (map (fun i => ("file", obj_get (index_key i) fields))
                                (seq 0 (Z.to_nat n))
                                ++ [("destination", destination)]))]) w)) /\
  (files = VUndefined \/ files = VNull ->
     exists what, uploadFiles files destination w = (Throw (TypeError what), w)).
Proof.
  unfold uploadFiles, indexed, bind, console, log.
  repeat split.
  - destruct files; simpl; rewrite ?fetches_app; simpl; rewrite ?app_nil_r; reflexivity.
  - destruct files; reflexivity.
  - destruct files; reflexivity.
  - destruct files; simpl; rewrite ?toasts_app, ?app_nil_r; reflexivity.
  - intros items ->. reflexivity.
  - intros fields n -> Hlen. simpl. rewrite Hlen. rewrite map_map. reflexivity.
  - intros [-> | ->]; eexists; reflexivity.
Qed.

End Requests.

(* ================================================================== *)
(** ** What the operations show *)
(* ================================================================== *)

Section Shown.

Context {platform : Platform}.

(** X15. [setHotspot] and [setThrottle] post to [.../on] when their argument
    is truthy and to [.../off] otherwise, with no body. On a 204 they
    return [null] and show nothing. On any other response whose body can
    be read they show exactly one toast of their own, "Unsupported!"
    when the [code] of the body is 34 and the general one otherwise, and
    return [undefined]. A 2xx other than 204 whose body cannot be read
    makes them throw the error of [json()]. *)
Theorem hotspot_throttle_switch on w t st b rest :
  network w = Responds t st b :: rest ->
  (t < 60000)%N ->
  (fetches (events (snd (setHotspot on w)))
     = fetches (events w)
         ++ [((API_URI ++ (if truthy on then "/hotspot/on" else "/hotspot/off"))%string,
              mkInit "POST" None)] /\
   fetches (events (snd (setThrottle on w)))
     = fetches (events w)
         ++ [((API_URI ++ (if truthy on then "/throttle/on" else "/throttle/off"))%string,
              mkInit "POST" None)]) /\
  (st = 204 ->
     fst (setHotspot on w) = Ret VNull /\
     toasts (events (snd (setHotspot on w))) = toasts (events w) /\
     fst (setThrottle on w) = Ret VNull /\
     toasts (events (snd (setThrottle on w))) = toasts (events w)) /\
  (forall parsed,
     st <> 204 -> b = Some parsed -> parsed <> VUndefined -> parsed <> VNull ->
     fst (setHotspot on w) = Ret VUndefined /\
     toasts (events (snd (setHotspot on w)))
       = toasts (events w)
           ++ toasts (wrol_events st parsed)
           ++ [if strict_eq (code_of parsed) (VNum 34)
               then error_toast "Unsupported!"
                      "Hotspot is only supported on a Raspberry Pi!"
               else error_toast "Error!"
                      "Could not modify hotspot.  See server logs."] /\
     fst (setThrottle on w) = Ret VUndefined /\
     toasts (events (snd (setThrottle on w)))
       = toasts (events w)
           ++ toasts (wrol_events st parsed)
           ++ [if strict_eq (code_of parsed) (VNum 34)
               then error_toast "Unsupported!"
                      "Throttle is only supported on a Raspberry Pi!"
               else error_toast "Error!"
                      "Could not modify throttle.  See server logs."]) /\
  (200 <= st < 300 -> st <> 204 -> b = None ->
     fst (setHotspot on w) = Throw JsonSyntaxError /\
     fst (setThrottle on w) = Throw JsonSyntaxError).
Proof.
  intros Hnet Ht.
  split; [| split; [| split]].
  - unfold setHotspot, setThrottle, apiPost.
    destruct (truthy on);
      rewrite !apiCall_then_fetches by (intros; no_request_tac);
      split; reflexivity.
  - intros ->. on_response w Hnet.
    unfold setHotspot, setThrottle, bind.
    destruct (truthy on); run; tidy_toasts; repeat split; reflexivity.
  - intros parsed Hst -> Hu Hn. on_response w Hnet.
    assert (Hw : 200 <= st < 300 -> wrol_events st parsed = []).
    { intros H. unfold wrol_events.
      destruct (Z.eqb_spec st 403); [lia | reflexivity]. }
    destruct (Z_le_dec 200 st); [destruct (Z_lt_dec st 300) |];
      try rewrite Hw by lia;
      unfold setHotspot, setThrottle, bind;
      destruct (truthy on); run;
      repeat (progress (open_parsed; run)); simpl;
      try match goal with
          | |- context [strict_eq (obj_get "code" ?f) (VNum 34)] =>
              destruct (strict_eq (obj_get "code" f) (VNum 34))
          end;
      tidy_toasts; repeat split; reflexivity.
  - intros H2xx Hst ->. on_response w Hnet.
    unfold setHotspot, setThrottle, bind.
    destruct (truthy on); run; split; reflexivity.
Qed.

(** X16. On a response that the executor hands back, [deleteTag] shows
    nothing on a 204; on a 400 it shows the message of the body when the
    [code] of the body is 38, and nothing at all for another code; on
    any other status it shows that the tag could not be deleted, a 2xx
    other than 204 included. On an error whose body cannot be read or is
    [null] it throws what the executor throws, and shows nothing. *)
Theorem deleteTag_toasts id name w t st b rest :
  network w = Responds t st b :: rest ->
  (t < 60000)%N ->
  (st = 204 ->
     deleteTag id name w
       = (Ret VUndefined,
          mkWorld rest (timer_first_on_tie w)
            (heap w ++ [mkResponse st b false]) (timers w ++ [Cleared])
            (events w ++ [EvFetch (API_URI ++ "/tag/" ++ to_string id)%string
                            (mkInit "DELETE" None)]))) /\
  (forall parsed,
     st = 400 -> b = Some parsed -> parsed <> VUndefined -> parsed <> VNull ->
     fst (deleteTag id name w) = Ret VUndefined /\
     toasts (events (snd (deleteTag id name w)))
       = toasts (events w)
           ++ (if strict_eq (code_of parsed) (VNum 38)
               then [mkToast "error" "Error!" (field_of parsed "message") 5000]
               else [])) /\
  (forall parsed,
     non_2xx st -> st <> 400 ->
     b = Some parsed -> parsed <> VUndefined -> parsed <> VNull ->
     fst (deleteTag id name w) = Ret VUndefined /\
     toasts (events (snd (deleteTag id name w)))
       = toasts (events w) ++ toasts (wrol_events st parsed)
           ++ [mkToast "error" "Error!"
                 (VStr ("Unable to delete tag: " ++ to_string name)%string) 5000]) /\
  (200 <= st < 300 -> st <> 204 ->
     fst (deleteTag id name w) = Ret VUndefined /\
     toasts (events (snd (deleteTag id name w)))
       = toasts (events w)
           ++ [mkToast "error" "Error!"
                 (VStr ("Unable to delete tag: " ++ to_string name)%string) 5000]) /\
  (non_2xx st -> b = None \/ b = Some VNull ->
     fst (deleteTag id name w)
       = Throw (match b with
                | None => JsonSyntaxError
                | Some _ => TypeError "property of null"
                end) /\
     toasts (events (snd (deleteTag id name w))) = toasts (events w)).
Proof.
  intros Hnet Ht.
  split; [| split; [| split; [| split]]].
  - intros ->. on_response w Hnet.
    unfold deleteTag, bind. run. reflexivity.
  - intros parsed -> -> Hu Hn. on_response w Hnet.
    unfold deleteTag, bind. run.
    repeat (progress (open_parsed; run)); simpl;
      try match goal with
          | |- context [strict_eq (obj_get "code" ?f) (VNum 38)] =>
              destruct (strict_eq (obj_get "code" f) (VNum 38))
          end;
      unfold wrol_events; simpl; tidy_toasts; split; reflexivity.
  - intros parsed Herr Hst -> Hu Hn. on_response w Hnet.
    unfold non_2xx in Herr.
    unfold deleteTag, bind. run. tidy_toasts. split; reflexivity.
  - intros H2xx Hst. on_response w Hnet.
    unfold deleteTag, bind. run. tidy_toasts. split; reflexivity.
  - intros Herr Hb. on_response w Hnet. unfold non_2xx in Herr.
    unfold deleteTag, bind.
    destruct Hb as [-> | ->]; run; tidy_toasts; split; reflexivity.
Qed.


(** X18. [downloadChannel] shows a toast of its own in one case only: a 400
    whose [code] is 30. Every other response that the executor hands
    back, the other errors included, is returned from in silence. *)
Theorem downloadChannel_toasts channelId w t st b rest :
  network w = Responds t st b :: rest ->
  (t < 60000)%N ->
  (forall parsed,
     st = 400 -> b = Some parsed -> parsed <> VUndefined -> parsed <> VNull ->
     fst (downloadChannel channelId w) = Ret VUndefined /\
     toasts (events (snd (downloadChannel channelId w)))
       = toasts (events w)
           ++ (if strict_eq (code_of parsed) (VNum 30)
               then [error_toast "Cannot Download!"
                       "This channel does not have a download record.  Modify the frequency."]
               else [])) /\
  (forall parsed,
     non_2xx st -> st <> 400 ->
     b = Some parsed -> parsed <> VUndefined -> parsed <> VNull ->
     fst (downloadChannel channelId w) = Ret VUndefined /\
     toasts (events (snd (downloadChannel channelId w)))
       = toasts (events w) ++ toasts (wrol_events st parsed)) /\
  (200 <= st < 300 ->
     fst (downloadChannel channelId w) = Ret VUndefined /\
     toasts (events (snd (downloadChannel channelId w))) = toasts (events w)).
Proof.
  intros Hnet Ht.
  split; [| split].
  - intros parsed -> -> Hu Hn. on_response w Hnet.
    unfold downloadChannel, bind. run.
    repeat (progress (open_parsed; run)); simpl;
      try match goal with
          | |- context [strict_eq (obj_get "code" ?f) (VNum 30)] =>
              destruct (strict_eq (obj_get "code" f) (VNum 30))
          end;
      unfold wrol_events; simpl; tidy_toasts; split; reflexivity.
  - intros parsed Herr Hst -> Hu Hn. on_response w Hnet.
    unfold non_2xx in Herr.
    unfold downloadChannel, bind. run. tidy_toasts. split; reflexivity.
  - intros H2xx. on_response w Hnet.
    unfold downloadChannel, bind. run. tidy_toasts. split; reflexivity.
Qed.

(** X19. [getChannel], [getVideo], [validateRegex], [getItems] and [getFiles]
    do not look at the status. On an error whose body is a JSON object
    they return what they read in that body, as if it were the payload
    ([getItems] the error body itself), with no toast of their own; on a
    2xx whose body cannot be read they throw the error of [json()]. *)
Theorem unchecked_readers arg0 w t st b rest :
  network w = Responds t st b :: rest ->
  (t < 60000)%N ->
  (forall fields,
     non_2xx st -> b = Some (VObj fields) ->
     fst (getChannel arg0 w) = Ret (obj_get "channel" fields) /\
     fst (getVideo arg0 w)
       = Ret (VArr [obj_get "file_group" fields; obj_get "prev" fields;
                    obj_get "next" fields]) /\
     fst (validateRegex arg0 w) = Ret (obj_get "valid" fields) /\
     fst (getItems arg0 w) = Ret (VObj fields) /\
     fst (getFiles arg0 w) = Ret (obj_get "files" fields) /\
     toasts (events (snd (getChannel arg0 w)))
       = toasts (events w) ++ toasts (wrol_events st (VObj fields)) /\
     toasts (events (snd (getVideo arg0 w)))
       = toasts (events w) ++ toasts (wrol_events st (VObj fields)) /\
     toasts (events (snd (validateRegex arg0 w)))
       = toasts (events w) ++ toasts (wrol_events st (VObj fields)) /\
     toasts (events (snd (getItems arg0 w)))
       = toasts (events w) ++ toasts (wrol_events st (VObj fields)) /\
     toasts (events (snd (getFiles arg0 w)))
       = toasts (events w) ++ toasts (wrol_events st (VObj fields))) /\
  (200 <= st < 300 -> b = None ->
     fst (getChannel arg0 w) = Throw JsonSyntaxError /\
     fst (getVideo arg0 w) = Throw JsonSyntaxError /\
     fst (validateRegex arg0 w) = Throw JsonSyntaxError /\
     fst (getItems arg0 w) = Throw JsonSyntaxError /\
     fst (getFiles arg0 w) = Throw JsonSyntaxError).
Proof.
  intros Hnet Ht. split.
  - intros fields Herr ->. on_response w Hnet. unfold non_2xx in Herr.
    unfold getChannel, getVideo, validateRegex, getItems, getFiles, bind.
    run. tidy_toasts. repeat split; reflexivity.
  - intros H2xx ->. on_response w Hnet.
    unfold getChannel, getVideo, validateRegex, getItems, getFiles, bind.
    run. repeat split; reflexivity.
Qed.

(** X20. [addTag] and [removeTag] name the file group by its id when it
    has one, or else by its primary path, or else by its path, and send
    the tag name alone when it has none of the three. On a response that
    the executor hands back, whatever its status, they return nothing
    and show no toast of their own. On an error whose body cannot be
    read or is [null] they throw what the executor throws. A file group
    that is [null] or [undefined] is a TypeError, and nothing is sent. *)
Theorem tag_requests (tagger : value -> value -> M value) (path : string)
  fileGroup name w :
  (tagger = addTag /\ path = "/files/tag") \/
  (tagger = removeTag /\ path = "/files/untag") ->
  (forall fields,
     fileGroup = VObj fields ->
     let id := obj_get "id" fields in
     let primary_path := obj_get "primary_path" fields in
     let file_path := obj_get "path" fields in
     exists sent,
       fetches (events (snd (tagger fileGroup name w)))
         = fetches (events w)
             ++ [((API_URI ++ path)%string, make_init "POST" (VObj sent))] /\
       sent =
         [("tag_name", name)]
           ++ (if truthy id then [("file_group_id", id)]
               else if truthy primary_path
               then [("file_group_primary_path", primary_path)]
               else if truthy file_path
               then [("file_group_primary_path", file_path)]
               else [])) /\
  (forall fields t st b rest,
     fileGroup = VObj fields ->
     network w = Responds t st b :: rest ->
     (t < 60000)%N ->
     200 <= st < 300 ->
     fst (tagger fileGroup name w) = Ret VUndefined /\
     toasts (events (snd (tagger fileGroup name w))) = toasts (events w)) /\
  (forall fields t st parsed rest,
     fileGroup = VObj fields ->
     network w = Responds t st (Some parsed) :: rest ->
     (t < 60000)%N ->
     non_2xx st -> parsed <> VUndefined -> parsed <> VNull ->
     fst (tagger fileGroup name w) = Ret VUndefined /\
     toasts (events (snd (tagger fileGroup name w)))
       = toasts (events w) ++ toasts (wrol_events st parsed)) /\
  (fileGroup = VUndefined \/ fileGroup = VNull ->
     exists what, tagger fileGroup name w = (Throw (TypeError what), w)) /\
  (forall fields t st b rest,
     fileGroup = VObj fields ->
     network w = Responds t st b :: rest ->
     (t < 60000)%N ->
     non_2xx st -> b = None \/ b = Some VNull ->
     fst (tagger fileGroup name w)
       = Throw (match b with
                | None => JsonSyntaxError
                | Some _ => TypeError "property of null"
                end) /\
     toasts (events (snd (tagger fileGroup name w))) = toasts (events w)).
Proof.
  intros Hwhich.
  split; [| split; [| split; [| split]]].
  - intros fields -> id primary_path file_path.
    eexists. split.
    + destruct Hwhich as [[-> ->] | [-> ->]];
        unfold addTag, removeTag, apiPost;
        unfold bind at 1; simpl; unfold bind at 1; simpl; unfold bind at 1; simpl;
        rewrite apiCall_then_fetches by (intros; no_request_tac);
        reflexivity.
    + subst id primary_path file_path.
      destruct (truthy (obj_get "id" fields));
        [reflexivity |].
      destruct (truthy (obj_get "primary_path" fields));
        [reflexivity |].
      destruct (truthy (obj_get "path" fields)); reflexivity.
  - intros fields t st b rest -> Hnet Ht H2xx. on_response w Hnet.
    destruct Hwhich as [[-> ->] | [-> ->]];
      unfold addTag, removeTag, bind; run; tidy_toasts; split; reflexivity.
  - intros fields t st parsed rest -> Hnet Ht Herr Hu Hn. on_response w Hnet.
    unfold non_2xx in Herr.
    destruct Hwhich as [[-> ->] | [-> ->]];
      unfold addTag, removeTag, bind; run; tidy_toasts; split; reflexivity.
  - intros [-> | ->]; destruct Hwhich as [[-> ->] | [-> ->]];
      eexists; reflexivity.
  - intros fields t st b rest -> Hnet Ht Herr Hb. on_response w Hnet.
    unfold non_2xx in Herr.
    destruct Hwhich as [[-> ->] | [-> ->]];
      unfold addTag, removeTag, bind; destruct Hb as [-> | ->]; run; tidy_toasts;
      split; reflexivity.
Qed.

End Shown.

(* ================================================================== *)
(** ** The properties above on concrete runs *)
(* ================================================================== *)

(** X3. Every exported operation but [refreshChannel] sends each of its
    requests under a timer of its own, and none of these timers is
    active in the world it leaves. So when the reply does not come in
    time (no reply, a late one, or a rejection of fetch) the operation
    does not wait for ever: it throws or returns. *)
Theorem operations_under_timer {platform : Platform} op args w :
  op <> RefreshChannel ->
  (transport_failure w = true -> fst (call op args w) <> Hang) /\
  exists reqs tms,
    fetches (events (snd (call op args w))) = fetches (events w) ++ reqs /\
    timers (snd (call op args w)) = timers w ++ tms /\
    List.length reqs = List.length tms /\
    existsb timer_active tms = false.
Proof.
  intros Hop.
  destruct (operations_guarded op args Hop w) as [Hends Htimers].
  split; [intros _; exact Hends | exact Htimers].
Qed.

Lemma operations_under_timer_witness :
  fst (call (platform := demo_platform) GetChannels [] (fresh_world [Silent]))
    <> Hang.
Proof.
  refine (proj1 (operations_under_timer (platform := demo_platform)
                   GetChannels [] (fresh_world [Silent]) _) eq_refl).
  discriminate.
Defined.

Lemma handleCheckbox_round_trip_witness :
  handleCheckbox (VBool true) (VObj [("path", VStr "a.osm.pbf")])
    [VStr "b.osm.pbf"] (fresh_world [])
  = (Ret [VStr "b.osm.pbf"; VStr "a.osm.pbf"], fresh_world []).
Proof.
  exact (proj1 (proj2
           (handleCheckbox_round_trip (VObj [("path", VStr "a.osm.pbf")])
              [("path", VStr "a.osm.pbf")] [VStr "b.osm.pbf"] (fresh_world [])
              eq_refl eq_refl eq_refl))).
Defined.

Lemma localDeleteArchive_always_reports_success_witness :
  fst (localDeleteArchive (platform := demo_platform)
         (fun _ w => (Ret tt, w)) (VObj [("id", VNum 1)]) (fresh_world [Silent]))
    = Ret tt /\
  toasts (events (snd (localDeleteArchive (platform := demo_platform)
                         (fun _ w => (Ret tt, w)) (VObj [("id", VNum 1)])
                         (fresh_world [Silent]))))
    = [error_toast "Unexpected server response" "Unable to delete archives";
       mkToast "success" "Archive Deleted"
         (VStr "Archive was successfully deleted.") 2000].
Proof.
  exact (proj1 (proj2 (proj2
           (localDeleteArchive_always_reports_success (platform := demo_platform)
              (fun _ w => (Ret tt, w)) (VObj [("id", VNum 1)]) [("id", VNum 1)]
              (fresh_world [Silent]) (fun _ _ => eq_refl) eq_refl)))
           eq_refl).
Defined.

Lemma localUpdateArchive_outcomes_witness :
  localUpdateArchive (platform := demo_platform)
    (VObj [("url", VStr "https://example.com")]) (fresh_world [Silent])
  = (Throw PromiseTimeout,
     snd (apiCall (platform := demo_platform) "/api/download" "POST"
            (VObj [("urls", VStr "https://example.com");
                   ("downloader", VStr "archive");
                   ("frequency", VNull);
                   ("excluded_urls", VUndefined);
                   ("destination", VNull)]) None (fresh_world [Silent]))).
Proof.
  exact (proj1 (proj1 (proj2
           (localUpdateArchive_outcomes (platform := demo_platform)
              (VObj [("url", VStr "https://example.com")])
              [("url", VStr "https://example.com")]
              (fresh_world [Silent]) eq_refl))
           PromiseTimeout eq_refl)).
Defined.

Lemma polling_idempotent_witness :
  fst (getStatus (platform := demo_platform)
         (snd (getStatus (platform := demo_platform)
                 (fresh_world [Responds 10 200 (Some (VObj [("cpu", VNum 1)]));
                               Responds 10 200 (Some (VObj [("cpu", VNum 1)]))]))))
  = fst (getStatus (platform := demo_platform)
           (fresh_world [Responds 10 200 (Some (VObj [("cpu", VNum 1)]));
                         Responds 10 200 (Some (VObj [("cpu", VNum 1)]))])).
Proof.
  exact (proj1
           (polling_idempotent (platform := demo_platform)
              (fresh_world [Responds 10 200 (Some (VObj [("cpu", VNum 1)]));
                            Responds 10 200 (Some (VObj [("cpu", VNum 1)]))])
              (Responds 10 200 (Some (VObj [("cpu", VNum 1)]))) [] eq_refl)).
Defined.

Lemma import_requests_witness :
  import (platform := demo_platform)
    [("files", VArr [VObj [("path", VStr "a.osm.pbf")]]);
     ("selectedPaths", VArr [])]
    (fresh_world [Silent])
  = (Throw PromiseTimeout,
     snd (importMapFiles (platform := demo_platform)
            (VArr [VStr "a.osm.pbf"]) (fresh_world [Silent]))).
Proof.
  assert (Hfiles :
    Forall (fun f => f <> VUndefined /\ f <> VNull)
      [VObj [("path", VStr "a.osm.pbf")]]).
  { repeat constructor; discriminate. }
  exact (proj1 (proj2
           (import_requests (platform := demo_platform)
              [("files", VArr [VObj [("path", VStr "a.osm.pbf")]]);
               ("selectedPaths", VArr [])]
              [VObj [("path", VStr "a.osm.pbf")]] []
              (fresh_world [Silent]) eq_refl Hfiles eq_refl))
           PromiseTimeout eq_refl).
Defined.

Lemma hotspot_throttle_switch_witness :
  fst (setHotspot (platform := demo_platform) (VBool true)
         (fresh_world [Responds 10 204 None])) = Ret VNull /\
  toasts (events (snd (setHotspot (platform := demo_platform) (VBool true)
                         (fresh_world [Responds 10 204 None])))) = [] /\
  fst (setThrottle (platform := demo_platform) (VBool true)
         (fresh_world [Responds 10 204 None])) = Ret VNull /\
  toasts (events (snd (setThrottle (platform := demo_platform) (VBool true)
                         (fresh_world [Responds 10 204 None])))) = [].
Proof.
  exact (proj1 (proj2
           (hotspot_throttle_switch (platform := demo_platform) (VBool true)
              (fresh_world [Responds 10 204 None]) 10%N 204 None []
              eq_refl eq_refl))
           eq_refl).
Defined.

Lemma deleteTag_toasts_witness :
  toasts (events (snd (deleteTag (platform := demo_platform) (VNum 1) (VStr "news")
                         (fresh_world
                            [Responds 10 400
                               (Some (VObj [("code", VNum 38);
                                            ("message", VStr "Tag is in use")]))]))))
  = [mkToast "error" "Error!" (VStr "Tag is in use") 5000].
Proof.
  refine (proj2 (proj1 (proj2
            (deleteTag_toasts (platform := demo_platform) (VNum 1) (VStr "news")
               (fresh_world
                  [Responds 10 400
                     (Some (VObj [("code", VNum 38);
                                  ("message", VStr "Tag is in use")]))])
               10%N 400
               (Some (VObj [("code", VNum 38); ("message", VStr "Tag is in use")]))
               [] eq_refl eq_refl))
            (VObj [("code", VNum 38); ("message", VStr "Tag is in use")])
            eq_refl eq_refl _ _)); discriminate.
Defined.


Lemma downloadChannel_toasts_witness :
  toasts (events (snd (downloadChannel (platform := demo_platform) (VNum 1)
                         (fresh_world
                            [Responds 10 400 (Some (VObj [("code", VNum 30)]))]))))
  = [error_toast "Cannot Download!"
       "This channel does not have a download record.  Modify the frequency."].
Proof.
  refine (proj2 (proj1
            (downloadChannel_toasts (platform := demo_platform) (VNum 1)
               (fresh_world [Responds 10 400 (Some (VObj [("code", VNum 30)]))])
               10%N 400 (Some (VObj [("code", VNum 30)])) [] eq_refl eq_refl)
            (VObj [("code", VNum 30)]) eq_refl eq_refl _ _)); discriminate.
Defined.

Lemma unchecked_readers_witness :
  fst (getChannel (platform := demo_platform) (VNum 1)
         (fresh_world [Responds 10 404 (Some (VObj [("error", VStr "No such channel")]))]))
  = Ret VUndefined.
Proof.
  refine (proj1 (proj1
            (unchecked_readers (platform := demo_platform) (VNum 1)
               (fresh_world
                  [Responds 10 404 (Some (VObj [("error", VStr "No such channel")]))])
               10%N 404 (Some (VObj [("error", VStr "No such channel")])) []
               eq_refl eq_refl)
            [("error", VStr "No such channel")] _ eq_refl)).
  right. lia.
Defined.

Lemma tag_requests_witness :
  exists sent,
    fetches (events (snd (addTag (platform := demo_platform)
                            (VObj [("primary_path", VStr "videos/a.mp4")])
                            (VStr "news") (fresh_world [Silent]))))
      = [("/api/files/tag", make_init (platform := demo_platform) "POST" (VObj sent))] /\
    sent = [("tag_name", VStr "news");
            ("file_group_primary_path", VStr "videos/a.mp4")].
Proof.
  exact (proj1
           (tag_requests (platform := demo_platform) addTag "/files/tag"
              (VObj [("primary_path", VStr "videos/a.mp4")]) (VStr "news")
              (fresh_world [Silent])
              (or_introl (conj eq_refl eq_refl)))
           [("primary_path", VStr "videos/a.mp4")] eq_refl).
Defined.

Lemma uploadFiles_sends_nothing_witness :
  uploadFiles
    (VObj [("0", VStr "a.pdf"); ("1", VStr "b.pdf"); ("length", VNum 2)])
    (VStr "docs") (fresh_world [Silent])
  = (Ret VUndefined,
     mkWorld [Silent] false [] []
       [EvConsole LLog
          [CVal (VObj [("file", VStr "a.pdf"); ("file", VStr "b.pdf");
                       ("destination", VStr "docs")])]]).
Proof.
  exact (proj1 (proj2 (proj2 (proj2 (proj2 (proj2
           (uploadFiles_sends_nothing
              (VObj [("0", VStr "a.pdf"); ("1", VStr "b.pdf"); ("length", VNum 2)])
              (VStr "docs") (fresh_world [Silent])))))))
           [("0", VStr "a.pdf"); ("1", VStr "b.pdf"); ("length", VNum 2)] 2
           eq_refl eq_refl).
Defined.

Lemma updateInventory_strips_id_witness :
  fetches (events (snd (updateInventory (platform := demo_platform) (VNum 1)
                          (VObj [("id", VNum 1); ("name", VStr "pantry")])
                          (fresh_world [Silent]))))
  = [("/api/inventory/1",
      make_init (platform := demo_platform) "PUT" (VObj [("name", VStr "pantry")]))].
Proof.
  exact (proj1
           (proj1
              (updateInventory_strips_id (platform := demo_platform) (VNum 1)
                 (VObj [("id", VNum 1); ("name", VStr "pantry")])
                 (fresh_world [Silent]))
              [("id", VNum 1); ("name", VStr "pantry")] eq_refl)).
Defined.
